(** * genefer20: the process driver of [main.cpp]

    A shallow embedding of [application::run], [main] and the signal
    handler of [src/main.cpp], and the properties of argument parsing,
    device selection, grid (BOINC) completion and cancellation that the
    specification states about them.

    Conventions.
    - [std::string] is [string]; [std::vector<std::string>] is [list string].
    - [int] and [size_t] values are [Z]; conversions are written out
      ([to_int], [to_size_t]).
    - Calls into the collaborators ([pio], [ocl], [genefer], [engine],
      the BOINC client) are recorded as a trace of [event]s; a thrown
      [std::runtime_error] is the [Throw] result. *)

From Stdlib Require Import ZArith List String Ascii Bool Lia.
From Stdlib Require Import DecimalString DecimalPos.
Import ListNotations.

Local Open Scope string_scope.
Local Open Scope list_scope.
Local Open Scope Z_scope.

(** ** Strings as the code uses them *)

Module Str.

(** [s[i]]: for [i = size()] the standard gives a reference to the null
    character; the code never indexes further than that (the banner test
    reads [arg[1]] only after [arg[0] == '-']). *)
Definition at_ (s : string) (i : nat) : ascii :=
  match String.get i s with
  | Some c => c
  | None => Ascii.zero
  end.

(** [s.substr(pos, len)] for [pos <= size()]. *)
Definition substr (s : string) (pos len : nat) : string :=
  String.substring pos len s.

(** [s.substr(pos)] for [pos <= size()]. *)
Definition substr_from (s : string) (pos : nat) : string :=
  String.substring pos (String.length s - pos) s.

Definition endl : string := String (ascii_of_nat 10) EmptyString.

(** [ostream << int]. *)
Definition of_int (z : Z) : string := NilZero.string_of_int (Z.to_int z).

End Str.

(** ** [std::atoi] *)

Module Libc.

Definition isspace (c : ascii) : bool :=
  let k := nat_of_ascii c in
  Nat.eqb k 32 || (Nat.leb 9 k && Nat.leb k 13).

Definition isdigit (c : ascii) : bool :=
  let k := nat_of_ascii c in
  Nat.leb 48 k && Nat.leb k 57.

Definition digit_val (c : ascii) : Z := Z.of_nat (nat_of_ascii c) - 48.

Fixpoint skip_spaces (s : string) : string :=
  match s with
  | String c s' => if isspace c then skip_spaces s' else s
  | EmptyString => s
  end.

(** The value of the longest run of decimal digits at the head of [s],
    accumulated on [acc]. *)
Fixpoint digits (acc : Z) (s : string) : Z :=
  match s with
  | String c s' => if isdigit c then digits (10 * acc + digit_val c) s' else acc
  | EmptyString => acc
  end.

Definition LONG_MAX : Z := 2 ^ 63 - 1.
Definition LONG_MIN : Z := - 2 ^ 63.

Definition clamp_long (z : Z) : Z := Z.max LONG_MIN (Z.min LONG_MAX z).

(** [strtol(s, NULL, 10)]: white space, an optional sign, decimal digits;
    saturates at the ends of [long]. *)
Definition strtol (s : string) : Z :=
  match skip_spaces s with
  | String c s' =>
      if Ascii.eqb c "-" then clamp_long (- digits 0 s')
      else if Ascii.eqb c "+" then clamp_long (digits 0 s')
      else clamp_long (digits 0 (String c s'))
  | EmptyString => clamp_long 0
  end.

(** Conversion to a 32-bit [int]. *)
Definition to_int (z : Z) : Z := (z + 2 ^ 31) mod 2 ^ 32 - 2 ^ 31.

(** Conversion of an [int] to a 64-bit [size_t]. *)
Definition to_size_t (z : Z) : Z := z mod 2 ^ 64.

(** [atoi(s)].  ISO C leaves the result undefined when the number does not
    fit an [int]; the model follows glibc there, [(int) strtol(s, NULL, 10)]. *)
Definition atoi (s : string) : Z := to_int (strtol s).

(** Does [s] hold a number where [atoi] looks for one: after the white
    space and an optional sign, a decimal digit? *)
Definition starts_number (s : string) : bool :=
  match skip_spaces s with
  | String c s' =>
      if Ascii.eqb c "-" || Ascii.eqb c "+"
      then match s' with String c' _ => isdigit c' | EmptyString => false end
      else isdigit c
  | EmptyString => false
  end.

Fixpoint all_digits (s : string) : bool :=
  match s with
  | String c s' => isdigit c && all_digits s'
  | EmptyString => true
  end.

Definition starts_with_digit (s : string) : bool :=
  match s with
  | String c _ => isdigit c
  | EmptyString => false
  end.

End Libc.

(** ** Results and traces *)

Inductive result (A : Type) : Type :=
| Ok (a : A)
| Throw (what : string).
Arguments Ok {A} a.
Arguments Throw {A} what.

(** ** The argument loop of [application::run] (lines 179-212) *)

Module Parse.

Record locals : Type := mkLocals {
  l_i : nat;
  l_d : Z;
  l_n : Z;
  l_filename : string;
  l_display : bool
}.

Definition init : locals :=
  {| l_i := 0; l_d := 0; l_n := 0; l_filename := ""; l_display := false |}.

Definition set_i (st : locals) (i : nat) : locals :=
  {| l_i := i; l_d := l_d st; l_n := l_n st;
     l_filename := l_filename st; l_display := l_display st |}.
Definition set_d (st : locals) (d : Z) : locals :=
  {| l_i := l_i st; l_d := d; l_n := l_n st;
     l_filename := l_filename st; l_display := l_display st |}.
Definition set_n (st : locals) (n : Z) : locals :=
  {| l_i := l_i st; l_d := l_d st; l_n := n;
     l_filename := l_filename st; l_display := l_display st |}.
Definition set_filename (st : locals) (f : string) : locals :=
  {| l_i := l_i st; l_d := l_d st; l_n := l_n st;
     l_filename := f; l_display := l_display st |}.
Definition set_display (st : locals) (b : bool) : locals :=
  {| l_i := l_i st; l_d := l_d st; l_n := l_n st;
     l_filename := l_filename st; l_display := b |}.

Section Loop.

(** [platform.getDeviceCount()] and the vector [args]. *)
Variable deviceCount : Z.
Variable args : list string.

Definition size : nat := List.length args.

Definition arg_at (i : nat) : string := nth i args "".

(** [((arg == flag) && (i + 1 < size)) ? args[++i] : arg.substr(k)], with
    [k] the length of [flag]: the text of the value, and [i] afterwards. *)
Definition value_of (flag : string) (i : nat) : string * nat :=
  let arg := arg_at i in
  if (arg =? flag)%string && Nat.ltb (i + 1) size
  then (arg_at (i + 1), (i + 1)%nat)
  else (Str.substr_from arg (String.length flag), i).

(** One pass through the body of the [for] loop, at [i = l_i st]. *)
Definition body (st : locals) : result locals :=
  let i := l_i st in
  let arg := arg_at i in
  let after_flag : result locals :=
    if (Str.substr arg 0 2 =? "-n")%string then
      let (nval, i') := value_of "-n" i in
      let n := Libc.atoi nval in
      if n <? 8 then Throw "n < 8 is not supported"
      else if n >? 16 then Throw "n > 16 is not supported"
      else Ok (set_n (set_i st i') n)
    else if (Str.substr arg 0 2 =? "-f")%string then
      let (fval, i') := value_of "-f" i in
      Ok (set_filename (set_i st i') fval)
    else if (Str.substr arg 0 2 =? "-d")%string then
      let (dev, i') := value_of "-d" i in
      let d := Libc.to_size_t (Libc.atoi dev) in
      if d >=? deviceCount then Throw "invalid device number"
      else Ok (set_d (set_i st i') d)
    else if (Str.substr arg 0 8 =? "--device")%string then
      let (dev, i') := value_of "--device" i in
      let d := Libc.to_size_t (Libc.atoi dev) in
      if d >=? deviceCount then Throw "invalid device number"
      else Ok (set_d (set_i st i') d)
    else Ok st in
  match after_flag with
  | Throw m => Throw m
  | Ok st' => Ok (if (arg =? "-p")%string then set_display st' true else st')
  end.

(** The [for] loop: [fuel] bounds the number of passes; [size] passes are
    always enough ([loop_fuel] below). *)
Fixpoint loop (fuel : nat) (st : locals) : result locals :=
  if Nat.ltb (l_i st) size then
    match fuel with
    | O => Ok st
    | S fuel' =>
        match body st with
        | Throw m => Throw m
        | Ok st' => loop fuel' (set_i st' (S (l_i st')))
        end
    end
  else Ok st.

Definition parse_args : result locals := loop size init.

(** The states in which the loop evaluates its condition. *)
Inductive visits : locals -> Prop :=
| visits_init : visits init
| visits_next st st' :
    visits st -> (l_i st < size)%nat -> body st = Ok st' ->
    visits (set_i st' (S (l_i st'))).

End Loop.

End Parse.

(** ** What the process does to the outside *)

(** The platform handed to the engine: the locally enumerated one, or the
    one built from the identities the grid client assigned
    ([ocl::platform(boinc_platform_id, boinc_device_id)]). *)
Inductive platform_sel : Type :=
| LocalPlatform
| ClientPlatform (platform_id device_id : Z).

Inductive event : Type :=
| EvPioSetBoinc (b : bool)                 (* pio::getInstance().setBoinc(b) *)
| EvBoincInit                              (* boinc_init() *)
| EvBoincIsStandalone                      (* boinc_is_standalone() *)
| EvBoincGetOpenclIds                      (* boinc_get_opencl_ids(...) *)
| EvBoincFinish (status : Z)               (* boinc_finish(status) *)
| EvPioError (text : string) (fatal : bool)(* pio::error(text, fatal) *)
| EvPioPrint (text : string)               (* pio::print(text) *)
| EvPlatform                               (* ocl::platform platform *)
| EvDisplayDevices                         (* platform.displayDevices() *)
| EvGenSetBoinc (b : bool)                 (* gen.setBoinc(b) *)
| EvEngine (p : platform_sel) (d : Z)      (* engine eng(eng_platform, eng_d) *)
| EvGenInit (n : Z) (b : bool)             (* gen.init(n, eng, b) *)
| EvCheckFile (filename : string) (display : bool)
| EvBench                                  (* gen.bench() *)
| EvRelease.                               (* gen.release() *)

(** The calls into the compute engine that may raise an error of their own. *)
Inductive site : Type := SiteEngine | SiteInit | SiteCheckFile | SiteBench.

(** The build and the surroundings of one run.  The collaborators are
    declared in pio.h, ocl.h, genefer.h and boinc.h, which are not among the
    sources at hand; what [run] needs of them is taken as given here.  Of
    [ocl::platform] the specification says that [displayDevices()] prints
    the catalog and returns the count that [getDeviceCount()] returns:
    both are [deviceCount]. *)
Record env : Type := mkEnv {
  BOINC : bool;                 (* the macro BOINC is defined *)
  sysver : string;              (* the platform name of [header] *)
  compiler : string;            (* [ssc.str()] of [header] *)
  boinc_init_ret : Z;           (* what boinc_init() returns *)
  boinc_is_standalone : bool;
  boinc_ids_err : Z;            (* what boinc_get_opencl_ids returns *)
  boinc_ids_device : Z;         (* and stores: 0 is the null identity *)
  boinc_ids_platform : Z;
  deviceCount : Z;              (* platform.getDeviceCount(), a size_t *)
  fault : site -> option string (* an error raised by the engine *)
}.

Definition EXIT_SUCCESS : Z := 0.
Definition EXIT_FAILURE : Z := 1.

(** Code that calls out and may throw: the calls made so far, and the
    value or the error. *)
Definition M (A : Type) : Type := list event * result A.

Definition ret {A} (a : A) : M A := ([], Ok a).

Definition throw {A} (what : string) : M A := ([], Throw what).

Definition emit (e : event) : M unit := ([e], Ok tt).

Definition bind {A B} (m : M A) (k : A -> M B) : M B :=
  match m with
  | (t, Throw what) => (t, Throw what)
  | (t, Ok a) => let (t', r) := k a in (t ++ t', r)
  end.

Definition lift {A} (r : result A) : M A := ([], r).

Notation "x <- m ;; k" := (bind m (fun x => k))
  (at level 61, m at next level, right associativity).
Notation "m ;;; k" := (bind m (fun _ => k))
  (at level 61, right associativity).

(** A call into the engine at [s], recorded as [e]. *)
Definition call (E : env) (s : site) (e : event) : M unit :=
  emit e ;;;
  match fault E s with
  | Some what => throw what
  | None => ret tt
  end.

(** ** [application::header] and [application::usage] *)

Fixpoint command_line (first : bool) (args : list string) : string :=
  match args with
  | [] => ""
  | arg :: rest =>
      ((if first then "" else " ") ++ arg ++ command_line false rest)%string
  end.

Definition header (E : env) (args : list string) (nl : bool) : string :=
  (("genefer20 1.13.0 " ++ sysver E ++ compiler E ++ Str.endl)
   ++ ("Copyright (c) 2020, Yves Gallot" ++ Str.endl)
   ++ ("genefer20 is free source code, under the MIT license." ++ Str.endl)
   ++ (if nl
       then Str.endl ++ "Command line: '" ++ command_line true args
            ++ "'" ++ Str.endl ++ Str.endl
       else ""))%string.

Definition usage (E : env) : string :=
  (("Usage: genefer20 [options]  options may be specified in any order" ++ Str.endl)
   ++ ("  -n <n>                  GFN exponent (b^{2^n} + 1) " ++ Str.endl)
   ++ ("  -f <filename>           input text file (one b per line)" ++ Str.endl)
   ++ ("  -d <n> or --device <n>  set device number=<n> (default 0)" ++ Str.endl)
   ++ ("  -p                      display results on the screen (default false)" ++ Str.endl)
   ++ ("  -v or -V                print the startup banner and immediately exit" ++ Str.endl)
   ++ (if BOINC E
       then "  -boinc                  operate as a BOINC client app" ++ Str.endl
       else "")
   ++ Str.endl)%string.

Arguments header : simpl never.
Arguments usage : simpl never.

(** ** [application::run] *)

(** Lines 130-133: [bBoinc]. *)
Definition bBoinc_of (E : env) (args : list string) : bool :=
  if BOINC E then existsb (fun arg => (arg =? "-boinc")%string) args else false.

(** Lines 136-157: the grid client is started; the result is
    [(boinc_platform_id, boinc_device_id)]. *)
Definition grid_init (E : env) (bBoinc : bool) : M (Z * Z) :=
  if bBoinc then
    emit EvBoincInit ;;;
    let retval := boinc_init_ret E in
    if negb (retval =? 0) then
      throw ("boinc_init returned " ++ Str.of_int retval)%string
    else if BOINC E then
      emit EvBoincIsStandalone ;;;
      if negb (boinc_is_standalone E) then
        emit EvBoincGetOpenclIds ;;;
        let err := boinc_ids_err E in
        if negb (err =? 0) || (boinc_ids_device E =? 0) || (boinc_ids_platform E =? 0)
        then throw (Str.endl ++ "error: boinc_get_opencl_ids() failed err = "
                    ++ Str.of_int err)%string
        else ret (boinc_ids_platform E, boinc_ids_device E)
      else ret (0, 0)
    else ret (0, 0)
  else ret (0, 0).

(** Line 162: the test made on each argument. *)
Definition is_banner_flag (arg : string) : bool :=
  Ascii.eqb (Str.at_ arg 0) "-"
  && (Ascii.eqb (Str.at_ arg 1) "v" || Ascii.eqb (Str.at_ arg 1) "V").

(** Lines 160-168: does the loop reach its [return]? *)
Fixpoint banner_requested (args : list string) : bool :=
  match args with
  | [] => false
  | arg :: rest => if is_banner_flag arg then true else banner_requested rest
  end.

Definition is_empty (s : string) : bool :=
  match s with EmptyString => true | _ => false end.

(** Lines 216-239: the engine is built and run. *)
Definition compute (E : env) (bBoinc : bool) (ids : Z * Z) (st : Parse.locals)
  : M unit :=
  let (boinc_platform_id, boinc_device_id) := ids in
  emit (EvGenSetBoinc bBoinc) ;;;
  let is_boinc_platform :=
    bBoinc && negb (boinc_device_id =? 0) && negb (boinc_platform_id =? 0) in
  let eng_platform :=
    if is_boinc_platform
    then ClientPlatform boinc_platform_id boinc_device_id
    else LocalPlatform in
  let eng_d := if is_boinc_platform then 0 else Parse.l_d st in
  call E SiteEngine (EvEngine eng_platform eng_d) ;;;
  call E SiteInit (EvGenInit (Parse.l_n st) bBoinc) ;;;
  (if negb (is_empty (Parse.l_filename st))
   then call E SiteCheckFile (EvCheckFile (Parse.l_filename st) (Parse.l_display st))
   else call E SiteBench EvBench) ;;;
  emit EvRelease ;;;
  if bBoinc then emit (EvBoincFinish EXIT_SUCCESS) else ret tt.

(** Lines 159-239: what [run] does once the grid client is started. *)
Definition after_grid_init (E : env) (args : list string) (bBoinc : bool)
  (ids : Z * Z) : M unit :=
  if banner_requested args then
    emit (EvPioError (header E args false) false) ;;;
    if bBoinc then emit (EvBoincFinish EXIT_SUCCESS) else ret tt
  else
    emit (EvPioPrint (header E args true)) ;;;
    (if Nat.eqb (List.length args) 0 then emit (EvPioPrint (usage E)) else ret tt) ;;;
    emit EvPlatform ;;;
    emit EvDisplayDevices ;;;
    if deviceCount E =? 0 then throw "No OpenCL device"
    else if Nat.eqb (List.length args) 0 then ret tt
    else
      st <- lift (Parse.parse_args (deviceCount E) args) ;;
      if Parse.l_n st =? 0 then ret tt
      else compute E bBoinc ids st.

(** [run], on [args] (the tokens [argv[1]] .. [argv[argc - 1]]). *)
Definition run (E : env) (args : list string) : M unit :=
  let bBoinc := bBoinc_of E args in
  emit (EvPioSetBoinc bBoinc) ;;;
  ids <- grid_init E bBoinc ;;
  after_grid_init E args bBoinc ids.

(** Is the run one that a grid client manages: grid mode is on and the
    client is not a stand-alone one? *)
Definition managed (E : env) (args : list string) : bool :=
  bBoinc_of E args && negb (boinc_is_standalone E).

(** ** [main] *)

(** The trace of the whole process and its exit status; [argv] holds the
    program name first. *)
Definition main (E : env) (argv : list string) : list event * Z :=
  match run E (tl argv) with
  | (t, Ok _) => (t, EXIT_SUCCESS)
  | (t, Throw what) =>
      (t ++ [EvPioError (Str.endl ++ "error: " ++ what ++ "." ++ Str.endl)%string true],
       EXIT_FAILURE)
  end.

(** ** The cancellation bridge: [application::application], [application::quit] *)

Module Cancellation.

(** Modelled from the spec: the singleton controller [genefer] of genefer.h,
    which is not among the sources at hand.  The spec gives its interface,
    [init(exponent, engine, gridModeFlag)] and [quit()], which "sets the
    cooperative cancellation flag"; the controller is that flag together
    with what [init] stored. *)
Record genefer : Type := mkGenefer {
  g_quit : bool;
  g_n : Z;
  g_isBoinc : bool
}.

(** Modelled from the spec: [genefer::quit()] sets the cooperative
    cancellation flag (genefer.h is not among the sources at hand). *)
Definition genefer_quit (g : genefer) : genefer :=
  {| g_quit := true; g_n := g_n g; g_isBoinc := g_isBoinc g |}.

(** What a handler called. *)
Inductive action : Type := CallGeneferQuit.

(** The process as a handler sees it: the singleton and the calls made by
    handlers so far. *)
Record process : Type := mkProcess {
  instance : genefer;
  handled : list action
}.

(** What the compute loop reads when it polls. *)
Definition poll (p : process) : bool := g_quit (instance p).

(** [application::quit(int)]: [genefer::getInstance().quit()]. *)
Definition quit (sig : Z) (p : process) : process :=
  {| instance := genefer_quit (instance p);
     handled := handled p ++ [CallGeneferQuit] |}.

(** [application::HandlerRoutine(DWORD)]: [quit(1); return TRUE]. *)
Definition HandlerRoutine (ctrl : Z) (p : process) : process * bool :=
  (quit 1 p, true).

Inductive os : Type := Win32 | Posix.

Definition SIGINT : Z := 2.
Definition SIGTERM : Z := 15.

(** The handlers an [application] object has registered. *)
Record handlers : Type := mkHandlers {
  on_signal : list (Z * (Z -> process -> process));
  on_console : option (Z -> process -> process * bool)
}.

(** [SetConsoleCtrlHandler(h, TRUE)] and [signal(sig, h)]. *)
Definition SetConsoleCtrlHandler (h : Z -> process -> process * bool)
  (t : handlers) : handlers :=
  {| on_signal := on_signal t; on_console := Some h |}.

Definition signal (sig : Z) (h : Z -> process -> process) (t : handlers)
  : handlers :=
  {| on_signal := (sig, h) :: on_signal t; on_console := on_console t |}.

(** The constructor [application()]. *)
Definition application (o : os) : handlers :=
  let none := {| on_signal := []; on_console := None |} in
  match o with
  | Win32 => SetConsoleCtrlHandler HandlerRoutine none
  | Posix => signal SIGINT quit (signal SIGTERM quit none)
  end.

(** A request from outside: a POSIX signal or a console control event. *)
Inductive request : Type :=
| Signal (sig : Z)
| ConsoleCtrl (ctrl : Z).

Fixpoint lookup (sig : Z) (l : list (Z * (Z -> process -> process)))
  : option (Z -> process -> process) :=
  match l with
  | [] => None
  | (s, h) :: l' => if s =? sig then Some h else lookup sig l'
  end.

(** One delivery: the registered handler runs; [None] when the request has
    no handler (the default action of the system applies). *)
Definition deliver (t : handlers) (r : request) (p : process) : option process :=
  match r with
  | Signal sig =>
      match lookup sig (on_signal t) with
      | Some h => Some (h sig p)
      | None => None
      end
  | ConsoleCtrl ctrl =>
      match on_console t with
      | Some h => Some (fst (h ctrl p))
      | None => None
      end
  end.

Fixpoint deliver_all (t : handlers) (rs : list request) (p : process)
  : option process :=
  match rs with
  | [] => Some p
  | r :: rs' =>
      match deliver t r p with
      | Some p' => deliver_all t rs' p'
      | None => None
      end
  end.

(** The stop requests of each system: SIGINT and SIGTERM, or any console
    control event. *)
Definition is_stop (o : os) (r : request) : bool :=
  match o, r with
  | Posix, Signal sig => (sig =? SIGINT) || (sig =? SIGTERM)
  | Win32, ConsoleCtrl _ => true
  | _, _ => false
  end.

End Cancellation.

(** ** Reading a trace *)

Definition is_finish (e : event) : bool :=
  match e with EvBoincFinish _ => true | _ => false end.

(** How often [boinc_finish] was called. *)
Definition finish_count (t : list event) : nat :=
  List.length (filter is_finish t).

(** Calls that build or drive the engine. *)
Definition is_engine_event (e : event) : bool :=
  match e with
  | EvGenSetBoinc _ | EvEngine _ _ | EvGenInit _ _
  | EvCheckFile _ _ | EvBench | EvRelease => true
  | _ => false
  end.

(** Calls that enumerate the devices. *)
Definition is_device_event (e : event) : bool :=
  match e with
  | EvPlatform | EvDisplayDevices => true
  | _ => false
  end.

(** Calls that write to one of the two output channels. *)
Definition is_output (e : event) : bool :=
  match e with
  | EvPioError _ _ | EvPioPrint _ => true
  | _ => false
  end.

Definition engines (t : list event) : list (platform_sel * Z) :=
  flat_map (fun e => match e with EvEngine p d => [(p, d)] | _ => [] end) t.

(** An environment for examples: a 64-bit Linux build, a stand-alone grid
    client, no engine fault, [count] devices. *)
Definition plain_env (boinc : bool) (count : Z) : env :=
  {| BOINC := boinc; sysver := "linux64"; compiler := " gcc-9.3.0";
     boinc_init_ret := 0; boinc_is_standalone := true;
     boinc_ids_err := 0; boinc_ids_device := 0; boinc_ids_platform := 0;
     deviceCount := count; fault := fun _ => None |}.

(** A BOINC build under a managing client: [boinc_init] returns [init_ret],
    the client assigns the identities [plat] and [dev]. *)
Definition client_env (init_ret plat dev count : Z) : env :=
  {| BOINC := true; sysver := "linux64"; compiler := " gcc-9.3.0";
     boinc_init_ret := init_ret; boinc_is_standalone := false;
     boinc_ids_err := 0; boinc_ids_device := dev; boinc_ids_platform := plat;
     deviceCount := count; fault := fun _ => None |}.

(** Calls into the grid client. *)
Definition is_client_event (e : event) : bool :=
  match e with
  | EvBoincInit | EvBoincIsStandalone | EvBoincGetOpenclIds
  | EvBoincFinish _ => true
  | _ => false
  end.

(** The error line of [main]: [pio::error(text, true)]. *)
Definition is_fatal (e : event) : bool :=
  match e with
  | EvPioError _ true => true
  | _ => false
  end.

(** The text [main] writes for the error [what]. *)
Definition error_line (what : string) : event :=
  EvPioError (Str.endl ++ "error: " ++ what ++ "." ++ Str.endl)%string true.

(** ** Reading the state of the argument loop *)

(** What the loop has gathered, apart from its position. *)
Definition values (st : Parse.locals) : Z * Z * string * bool :=
  (Parse.l_d st, Parse.l_n st, Parse.l_filename st, Parse.l_display st).

(** Two results of the loop that a caller cannot tell apart: the same
    error, or the same values. *)
Definition agree (r r' : result Parse.locals) : Prop :=
  match r, r' with
  | Ok a, Ok b => values a = values b
  | Throw m, Throw m' => m = m'
  | _, _ => False
  end.

(** The loop is at a device flag, in its short or its long form. *)
Definition device_flag_at (args : list string) (st : Parse.locals)
  (flag : string) : Prop :=
  (flag = "-d" /\
   Str.substr (Parse.arg_at args (Parse.l_i st)) 0 2 = "-d") \/
  (flag = "--device" /\
   Str.substr (Parse.arg_at args (Parse.l_i st)) 0 8 = "--device").

(** Every device value that the loop reads passes the test of lines 203
    and 209: converted by [atoi] and by the assignment to the [size_t]
    [d], it is below the device count. *)
Definition devices_accepted (deviceCount : Z) (args : list string) : Prop :=
  forall st flag,
    Parse.visits deviceCount args st ->
    (Parse.l_i st < Parse.size args)%nat ->
    device_flag_at args st flag ->
    Libc.to_size_t
      (Libc.atoi (fst (Parse.value_of args flag (Parse.l_i st)))) < deviceCount.

(** The flags of the loop that take a value. *)
Definition value_flags : list string := ["-n"; "-f"; "-d"; "--device"].

(** A token for which no branch of the loop body is taken. *)
Definition is_unknown (arg : string) : bool :=
  negb (Str.substr arg 0 2 =? "-n")%string
  && negb (Str.substr arg 0 2 =? "-f")%string
  && negb (Str.substr arg 0 2 =? "-d")%string
  && negb (Str.substr arg 0 8 =? "--device")%string
  && negb (arg =? "-p")%string.

(** * Properties *)

(** ** The argument loop *)

Module ParseFacts.
Import Parse.

Section Loop.

Variable deviceCount : Z.
Variable args : list string.

Local Abbreviation body := (body deviceCount args).
Local Abbreviation loop := (loop deviceCount args).
Local Abbreviation visits := (visits deviceCount args).
Local Abbreviation size := (size args).

Lemma value_of_index flag i :
  (i <= snd (value_of args flag i))%nat.
Proof.
  unfold value_of.
  destruct ((arg_at args i =? flag)%string && Nat.ltb (i + 1) size); simpl; lia.
Qed.

(** A pass never moves [i] backwards. *)
Lemma body_index st st' :
  body st = Ok st' -> (l_i st <= l_i st')%nat.
Proof.
  unfold Parse.body.
  set (arg := arg_at args (l_i st)).
  assert (Hp : forall s : locals,
             l_i (if (arg =? "-p")%string then set_display s true else s) = l_i s)
    by (intros s; destruct (arg =? "-p")%string; reflexivity).
  destruct (Str.substr arg 0 2 =? "-n")%string.
  { pose proof (value_of_index "-n" (l_i st)) as Hv.
    destruct (value_of args "-n" (l_i st)) as [v i']; simpl in Hv.
    destruct (Libc.atoi v <? 8); [discriminate|].
    destruct (Libc.atoi v >? 16); [discriminate|].
    intros H; injection H as <-. rewrite Hp. exact Hv. }
  destruct (Str.substr arg 0 2 =? "-f")%string.
  { pose proof (value_of_index "-f" (l_i st)) as Hv.
    destruct (value_of args "-f" (l_i st)) as [v i']; simpl in Hv.
    intros H; injection H as <-. rewrite Hp. exact Hv. }
  destruct (Str.substr arg 0 2 =? "-d")%string.
  { pose proof (value_of_index "-d" (l_i st)) as Hv.
    destruct (value_of args "-d" (l_i st)) as [v i']; simpl in Hv.
    destruct (Libc.to_size_t (Libc.atoi v) >=? deviceCount); [discriminate|].
    intros H; injection H as <-. rewrite Hp. exact Hv. }
  destruct (Str.substr arg 0 8 =? "--device")%string.
  { pose proof (value_of_index "--device" (l_i st)) as Hv.
    destruct (value_of args "--device" (l_i st)) as [v i']; simpl in Hv.
    destruct (Libc.to_size_t (Libc.atoi v) >=? deviceCount); [discriminate|].
    intros H; injection H as <-. rewrite Hp. exact Hv. }
  intros H; injection H as <-. rewrite Hp. lia.
Qed.

(** The loop is total: any fuel that covers the tokens still to be read
    gives the same result, so [size] passes are enough from any state. *)
Lemma loop_fuel f1 : forall f2 st,
  (size - l_i st <= f1)%nat -> (size - l_i st <= f2)%nat ->
  loop f1 st = loop f2 st.
Proof.
  induction f1 as [|f1 IH]; intros f2 st H1 H2.
  - destruct f2; simpl; destruct (Nat.ltb_spec (l_i st) size); try reflexivity; lia.
  - destruct f2 as [|f2]; simpl;
      destruct (Nat.ltb_spec (l_i st) size) as [Hlt|Hge]; try reflexivity; try lia.
    destruct (body st) as [st'|m] eqn:Hb; [|reflexivity].
    apply body_index in Hb.
    apply IH; simpl; lia.
Qed.

Lemma loop_done fuel st :
  (size <= l_i st)%nat -> loop fuel st = Ok st.
Proof.
  intros H. destruct fuel; simpl;
    destruct (Nat.ltb_spec (l_i st) size); try reflexivity; lia.
Qed.

Lemma loop_step fuel st :
  (l_i st < size)%nat -> (size - l_i st <= fuel)%nat ->
  loop fuel st =
  match body st with
  | Throw m => Throw m
  | Ok st' => loop (size - S (l_i st')) (set_i st' (S (l_i st')))
  end.
Proof.
  intros Hlt Hf. destruct fuel as [|fuel]; [lia|].
  simpl. destruct (Nat.ltb_spec (l_i st) size); [|lia].
  destruct (body st) as [st'|m] eqn:Hb; [|reflexivity].
  apply body_index in Hb.
  apply loop_fuel; simpl; lia.
Qed.

(** With enough fuel the loop stops only at the end of the list, so a
    result of [parse_args] is never one cut short by the fuel. *)
Lemma loop_complete fuel : forall st st',
  (size - l_i st <= fuel)%nat -> loop fuel st = Ok st' -> (size <= l_i st')%nat.
Proof.
  induction fuel as [|fuel IH]; intros st st' Hf; simpl.
  - destruct (Nat.ltb_spec (l_i st) size) as [Hlt|Hge]; [lia|].
    intros Heq; injection Heq as <-. exact Hge.
  - destruct (Nat.ltb_spec (l_i st) size) as [Hlt|Hge].
    + destruct (body st) as [st1|m] eqn:Hb; [|discriminate].
      apply body_index in Hb. apply IH. simpl. lia.
    + intros Heq; injection Heq as <-. exact Hge.
Qed.

Lemma parse_args_complete st :
  parse_args deviceCount args = Ok st -> (size <= l_i st)%nat.
Proof.
  apply loop_complete. simpl. lia.
Qed.

(** From a visited state, the rest of the loop decides the result. *)
Lemma visits_parse st :
  visits st -> parse_args deviceCount args = loop (size - l_i st) st.
Proof.
  induction 1 as [|st st' Hv IH Hlt Hb].
  - unfold parse_args. simpl. rewrite Nat.sub_0_r. reflexivity.
  - rewrite IH. rewrite loop_step by lia. rewrite Hb. reflexivity.
Qed.

(** An error raised in a visited state is the result of the whole loop. *)
Lemma visits_throw st m :
  visits st -> (l_i st < size)%nat -> body st = Throw m ->
  parse_args deviceCount args = Throw m.
Proof.
  intros Hv Hlt Hb. rewrite (visits_parse st Hv).
  rewrite loop_step by lia. rewrite Hb. reflexivity.
Qed.

(** What holds at the start and is kept by every pass holds at the end. *)
Lemma loop_invariant (P : locals -> Prop) :
  (forall st st', P st -> (l_i st < size)%nat -> body st = Ok st' ->
                  P (set_i st' (S (l_i st')))) ->
  forall fuel st st', P st -> loop fuel st = Ok st' -> P st'.
Proof.
  intros Hstep. induction fuel as [|fuel IH]; intros st st' HP; simpl.
  - destruct (Nat.ltb (l_i st) size); intros H; injection H as <-; exact HP.
  - destruct (Nat.ltb_spec (l_i st) size) as [Hlt|Hge].
    + destruct (body st) as [st1|m] eqn:Hb; [|discriminate].
      apply IH. eapply Hstep; eauto.
    + intros H; injection H as <-; exact HP.
Qed.

Lemma parse_invariant (P : locals -> Prop) st :
  P init ->
  (forall st st', P st -> (l_i st < size)%nat -> body st = Ok st' ->
                  P (set_i st' (S (l_i st')))) ->
  parse_args deviceCount args = Ok st -> P st.
Proof.
  intros H0 Hstep H. exact (loop_invariant P Hstep _ _ _ H0 H).
Qed.

(** Only the token [-p] itself has [-p] as its first two characters. *)
Lemma not_p arg :
  Str.substr arg 0 2 <> "-p" -> (arg =? "-p")%string = false.
Proof.
  intros H. destruct (String.eqb_spec arg "-p") as [->|]; [|reflexivity].
  exfalso. apply H. reflexivity.
Qed.

(** The pass at an exponent flag. *)
Lemma body_n st :
  Str.substr (arg_at args (l_i st)) 0 2 = "-n" ->
  body st =
  let n := Libc.atoi (fst (value_of args "-n" (l_i st))) in
  if n <? 8 then Throw "n < 8 is not supported"
  else if n >? 16 then Throw "n > 16 is not supported"
  else Ok (set_n (set_i st (snd (value_of args "-n" (l_i st)))) n).
Proof.
  intros H. unfold Parse.body. rewrite H. simpl.
  destruct (value_of args "-n" (l_i st)) as [v i']. simpl.
  destruct (Libc.atoi v <? 8); [reflexivity|].
  destruct (Libc.atoi v >? 16); [reflexivity|].
  rewrite not_p by (rewrite H; discriminate). reflexivity.
Qed.

Lemma substr_2_of_8 arg :
  Str.substr arg 0 8 = "--device" -> Str.substr arg 0 2 = "--".
Proof.
  unfold Str.substr.
  destruct arg as [|a [|b s]]; simpl; try discriminate.
  intros H. injection H as -> -> _.
  destruct s; reflexivity.
Qed.

(** The pass at a device flag, in its short form ... *)
Lemma body_d st :
  Str.substr (arg_at args (l_i st)) 0 2 = "-d" ->
  body st =
  let d := Libc.to_size_t (Libc.atoi (fst (value_of args "-d" (l_i st)))) in
  if d >=? deviceCount then Throw "invalid device number"
  else Ok (set_d (set_i st (snd (value_of args "-d" (l_i st)))) d).
Proof.
  intros H. unfold Parse.body. rewrite H. simpl.
  destruct (value_of args "-d" (l_i st)) as [v i']. simpl.
  destruct (Libc.to_size_t (Libc.atoi v) >=? deviceCount); [reflexivity|].
  rewrite not_p by (rewrite H; discriminate). reflexivity.
Qed.

(** ... and in its long form. *)
Lemma body_device st :
  Str.substr (arg_at args (l_i st)) 0 8 = "--device" ->
  body st =
  let d := Libc.to_size_t (Libc.atoi (fst (value_of args "--device" (l_i st)))) in
  if d >=? deviceCount then Throw "invalid device number"
  else Ok (set_d (set_i st (snd (value_of args "--device" (l_i st)))) d).
Proof.
  intros H. pose proof (substr_2_of_8 _ H) as H2.
  unfold Parse.body. rewrite H2, H. simpl.
  destruct (value_of args "--device" (l_i st)) as [v i']. simpl.
  destruct (Libc.to_size_t (Libc.atoi v) >=? deviceCount); [reflexivity|].
  rewrite not_p by (rewrite H2; discriminate). reflexivity.
Qed.

(** A pass at a token that is not an exponent flag leaves [n] alone. *)
Lemma body_keeps_n st st' :
  Str.substr (arg_at args (l_i st)) 0 2 <> "-n" ->
  body st = Ok st' -> l_n st' = l_n st.
Proof.
  intros Hn. unfold Parse.body.
  set (arg := arg_at args (l_i st)) in *.
  assert (Hp : forall s : locals,
             l_n (if (arg =? "-p")%string then set_display s true else s) = l_n s)
    by (intros s; destruct (arg =? "-p")%string; reflexivity).
  destruct (String.eqb_spec (Str.substr arg 0 2) "-n") as [E|_]; [contradiction|].
  destruct (Str.substr arg 0 2 =? "-f")%string.
  { destruct (value_of args "-f" (l_i st)) as [v i'].
    intros H; injection H as <-. rewrite Hp. reflexivity. }
  destruct (Str.substr arg 0 2 =? "-d")%string.
  { destruct (value_of args "-d" (l_i st)) as [v i'].
    destruct (Libc.to_size_t (Libc.atoi v) >=? deviceCount); [discriminate|].
    intros H; injection H as <-. rewrite Hp. reflexivity. }
  destruct (Str.substr arg 0 8 =? "--device")%string.
  { destruct (value_of args "--device" (l_i st)) as [v i'].
    destruct (Libc.to_size_t (Libc.atoi v) >=? deviceCount); [discriminate|].
    intros H; injection H as <-. rewrite Hp. reflexivity. }
  intros H; injection H as <-. rewrite Hp. reflexivity.
Qed.

(** The only error such a pass can raise is the one of the device check. *)
Lemma body_throw_no_n st m :
  Str.substr (arg_at args (l_i st)) 0 2 <> "-n" ->
  body st = Throw m -> m = "invalid device number".
Proof.
  intros Hn. unfold Parse.body.
  set (arg := arg_at args (l_i st)) in *.
  destruct (String.eqb_spec (Str.substr arg 0 2) "-n") as [E|_]; [contradiction|].
  destruct (Str.substr arg 0 2 =? "-f")%string.
  { destruct (value_of args "-f" (l_i st)) as [v i']. discriminate. }
  destruct (Str.substr arg 0 2 =? "-d")%string.
  { destruct (value_of args "-d" (l_i st)) as [v i'].
    destruct (Libc.to_size_t (Libc.atoi v) >=? deviceCount); [|discriminate].
    intros H; injection H as <-. reflexivity. }
  destruct (Str.substr arg 0 8 =? "--device")%string.
  { destruct (value_of args "--device" (l_i st)) as [v i'].
    destruct (Libc.to_size_t (Libc.atoi v) >=? deviceCount); [|discriminate].
    intros H; injection H as <-. reflexivity. }
  discriminate.
Qed.

Lemma arg_at_In i : (i < size)%nat -> In (arg_at args i) args.
Proof. intros H. apply nth_In. exact H. Qed.

(** Without a token that starts with [-n], the loop ends with [n = 0] or
    with the error of the device check. *)
Lemma loop_no_n :
  (forall a, In a args -> Str.substr a 0 2 <> "-n") ->
  forall fuel st,
    match loop fuel st with
    | Ok st' => l_n st' = l_n st
    | Throw m => m = "invalid device number"
    end.
Proof.
  intros Hno. induction fuel as [|fuel IH]; intros st; simpl.
  - destruct (Nat.ltb (l_i st) size); reflexivity.
  - destruct (Nat.ltb_spec (l_i st) size) as [Hlt|Hge]; [|reflexivity].
    pose proof (Hno _ (arg_at_In _ Hlt)) as Hn.
    destruct (body st) as [st1|m] eqn:Hb.
    + specialize (IH (set_i st1 (S (l_i st1)))).
      destruct (loop fuel (set_i st1 (S (l_i st1)))); [|exact IH].
      rewrite IH. simpl. eapply body_keeps_n; eauto.
    + eapply body_throw_no_n; eauto.
Qed.

End Loop.

End ParseFacts.

(** ** [atoi] on the values the loop hands it *)

Module LibcFacts.
Import Libc.

Lemma digits_stop acc s :
  starts_with_digit s = false -> digits acc s = acc.
Proof.
  destruct s as [|c s]; simpl; [reflexivity|].
  intros ->. reflexivity.
Qed.

Lemma digits_app ds : forall acc g,
  all_digits ds = true -> starts_with_digit g = false ->
  digits acc (ds ++ g)%string = digits acc ds.
Proof.
  induction ds as [|c ds IH]; intros acc g Hd Hg; simpl.
  - apply digits_stop; exact Hg.
  - simpl in Hd. apply andb_prop in Hd as [Hc Hds].
    rewrite Hc. apply IH; assumption.
Qed.

Lemma digit_not_space c : isdigit c = true -> isspace c = false.
Proof.
  unfold isdigit, isspace. cbv zeta.
  intros H. apply andb_prop in H as [H1 H2].
  apply Nat.leb_le in H1.
  apply orb_false_intro.
  - apply Nat.eqb_neq. lia.
  - apply andb_false_intro2. apply Nat.leb_gt. lia.
Qed.

Lemma digit_not_sign c :
  isdigit c = true -> Ascii.eqb c "-" = false /\ Ascii.eqb c "+" = false.
Proof.
  intros H. split.
  - destruct (Ascii.eqb_spec c "-") as [->|]; [discriminate H|reflexivity].
  - destruct (Ascii.eqb_spec c "+") as [->|]; [discriminate H|reflexivity].
Qed.

(** Text that does not start with a number converts to 0. *)
Lemma atoi_no_number s : starts_number s = false -> atoi s = 0.
Proof.
  unfold starts_number, atoi, strtol.
  destruct (skip_spaces s) as [|c s']; [reflexivity|].
  destruct (Ascii.eqb c "-"); simpl.
  { intros H. rewrite digits_stop by exact H. reflexivity. }
  destruct (Ascii.eqb c "+"); simpl.
  { intros H. rewrite digits_stop by exact H. reflexivity. }
  intros ->. reflexivity.
Qed.

(** Whatever follows the digits is not read. *)
Lemma atoi_trailing ds g :
  ds <> "" -> all_digits ds = true -> starts_with_digit g = false ->
  atoi (ds ++ g)%string = atoi ds.
Proof.
  intros Hne Hd Hg.
  destruct ds as [|c ds]; [congruence|].
  pose proof Hd as Hd'. simpl in Hd'. apply andb_prop in Hd' as [Hc _].
  pose proof (digit_not_space c Hc) as Hs.
  destruct (digit_not_sign c Hc) as [Hm Hp].
  unfold atoi, strtol.
  change (String c ds ++ g)%string with (String c (ds ++ g)%string).
  cbn [skip_spaces]. rewrite Hs, Hm, Hp.
  change (String c (ds ++ g)%string) with (String c ds ++ g)%string.
  rewrite digits_app by assumption. reflexivity.
Qed.

End LibcFacts.

(** ** [atoi] on an integer written in decimal *)

Module NumeralFacts.
Import Libc.

Ltac digit_chars :=
  repeat match goal with
         | |- context [isdigit ?c] => change (isdigit c) with true
         | |- context [digit_val ?c] =>
             let v := eval vm_compute in (digit_val c) in
             change (digit_val c) with v
         end; cbv iota.

(** [digits] reads the digits that the decimal printer writes. *)
Lemma digits_of_uint_acc d : forall acc : positive,
  digits (Zpos acc) (NilEmpty.string_of_uint d) = Zpos (Pos.of_uint_acc d acc).
Proof.
  induction d; intros acc;
    cbn [NilEmpty.string_of_uint Pos.of_uint_acc digits];
    try reflexivity; digit_chars; rewrite <- IHd; f_equal; lia.
Qed.

Lemma digits_of_uint d :
  digits 0 (NilEmpty.string_of_uint d) = Z.of_N (Pos.of_uint d).
Proof.
  induction d; cbn [NilEmpty.string_of_uint Pos.of_uint digits];
    try reflexivity; digit_chars; cbn [Z.mul Z.add Z.of_N];
    first [exact IHd | apply digits_of_uint_acc].
Qed.

(** A number that is not empty is printed with a digit first. *)
Lemma string_of_uint_head d :
  d <> Decimal.Nil ->
  NilZero.string_of_uint d = NilEmpty.string_of_uint d /\
  exists c s, NilEmpty.string_of_uint d = String c s /\ isdigit c = true.
Proof.
  intros Hd. destruct d; try contradiction; (split; [reflexivity|]);
    cbn [NilEmpty.string_of_uint]; eexists; eexists; split; reflexivity.
Qed.

Lemma to_int_small z : - 2 ^ 31 <= z < 2 ^ 31 -> to_int z = z.
Proof.
  intros H. unfold to_int. rewrite Z.mod_small by lia. lia.
Qed.

Lemma clamp_long_small z : - 2 ^ 31 <= z < 2 ^ 31 -> clamp_long z = z.
Proof.
  intros H. unfold clamp_long, LONG_MIN, LONG_MAX. lia.
Qed.

(** [atoi] reads back every [int] that is written in decimal. *)
Lemma atoi_of_int z :
  - 2 ^ 31 <= z < 2 ^ 31 -> atoi (Str.of_int z) = z.
Proof.
  intros Hz. unfold Str.of_int. destruct z as [|p|p].
  - reflexivity.
  - cbn [Z.to_int NilZero.string_of_int].
    destruct (string_of_uint_head (Pos.to_uint p) (Unsigned.to_uint_nonnil p))
      as (-> & c & s & Hs & Hc).
    pose proof (digits_of_uint (Pos.to_uint p)) as Hd.
    rewrite Unsigned.of_to in Hd. rewrite Hs in *.
    destruct (LibcFacts.digit_not_sign c Hc) as [Hm Hp].
    unfold atoi, strtol. cbn [skip_spaces].
    rewrite (LibcFacts.digit_not_space c Hc), Hm, Hp, Hd.
    cbn [Z.of_N]. rewrite clamp_long_small by exact Hz.
    apply to_int_small. exact Hz.
  - cbn [Z.to_int NilZero.string_of_int].
    destruct (string_of_uint_head (Pos.to_uint p) (Unsigned.to_uint_nonnil p))
      as (-> & _).
    pose proof (digits_of_uint (Pos.to_uint p)) as Hd.
    rewrite Unsigned.of_to in Hd.
    unfold atoi, strtol. cbn [skip_spaces].
    change (isspace "-") with false. cbv iota.
    change (Ascii.eqb "-" "-") with true. cbv iota.
    rewrite Hd. cbn [Z.of_N Z.opp]. rewrite clamp_long_small by exact Hz.
    apply to_int_small. exact Hz.
Qed.

(** The assignment of an [int] to the [size_t] [d]. *)
Lemma to_size_t_small z : 0 <= z < 2 ^ 31 -> to_size_t z = z.
Proof.
  intros H. unfold to_size_t. apply Z.mod_small. lia.
Qed.

Lemma to_size_t_wraps z : - 2 ^ 31 <= z < 0 -> to_size_t z = z + 2 ^ 64.
Proof.
  intros H. unfold to_size_t. symmetry.
  apply (Z.mod_unique z (2 ^ 64) (-1) (z + 2 ^ 64)); lia.
Qed.

End NumeralFacts.

(** ** The exponent and the device index *)

(** C1, as the specification words it, fails: the exponent 4294967306 is
    outside 8..16, and [-n 4294967306] is accepted: [atoi] hands back 10,
    and the engine is initialised with 10. *)
Lemma C1_exponent_range_counterexample :
  Str.of_int 4294967306 = "4294967306" /\
  ~ (8 <= 4294967306 <= 16) /\
  Parse.parse_args 1 ["-n"; "4294967306"]
  = Ok (Parse.set_n (Parse.set_i Parse.init 2) 10) /\
  In (EvGenInit 10 false)
     (fst (main (plain_env false 1) ["genefer20"; "-n"; "4294967306"])) /\
  snd (main (plain_env false 1) ["genefer20"; "-n"; "4294967306"]) = EXIT_SUCCESS.
Proof.
  split; [reflexivity|]. split; [lia|]. split; [reflexivity|].
  split; [vm_compute; auto 10|reflexivity].
Qed.

(** C1, amended. Wherever the argument loop comes upon an exponent flag (a
    token whose first two characters are [-n]) whose value is an integer
    [z] written in decimal that fits a 32-bit [int]: for [z < 8] the whole
    parse fails with "n < 8 is not supported", for [z > 16] with "n > 16
    is not supported", and for [8 <= z <= 16] the pass succeeds, stores
    [z] as the exponent and the loop goes on. *)
Theorem C1_exponent_range (deviceCount : Z) (args : list string)
  (st : Parse.locals) (z : Z) :
  Parse.visits deviceCount args st ->
  (Parse.l_i st < Parse.size args)%nat ->
  Str.substr (Parse.arg_at args (Parse.l_i st)) 0 2 = "-n" ->
  fst (Parse.value_of args "-n" (Parse.l_i st)) = Str.of_int z ->
  - 2 ^ 31 <= z < 2 ^ 31 ->
  (z < 8 ->
   Parse.parse_args deviceCount args = Throw "n < 8 is not supported") /\
  (16 < z ->
   Parse.parse_args deviceCount args = Throw "n > 16 is not supported") /\
  (8 <= z <= 16 ->
   exists st', Parse.body deviceCount args st = Ok st' /\
               Parse.l_n st' = z /\
               Parse.visits deviceCount args (Parse.set_i st' (S (Parse.l_i st')))).
Proof.
  intros Hv Hlt Hn Hval Hz.
  pose proof (ParseFacts.body_n deviceCount args st Hn) as Hb.
  cbv zeta in Hb. rewrite Hval, (NumeralFacts.atoi_of_int z Hz) in Hb.
  repeat split.
  - intros Hlo. apply (ParseFacts.visits_throw _ _ st); auto.
    rewrite Hb. destruct (Z.ltb_spec z 8); [reflexivity|lia].
  - intros Hhi. apply (ParseFacts.visits_throw _ _ st); auto.
    rewrite Hb. destruct (Z.ltb_spec z 8); [lia|].
    destruct (Z.gtb_spec z 16); [reflexivity|lia].
  - intros [Hlo Hhi].
    destruct (Z.ltb_spec z 8); [lia|].
    destruct (Z.gtb_spec z 16); [lia|].
    eexists. split; [exact Hb|]. split; [reflexivity|].
    eapply Parse.visits_next; eauto.
Qed.

(** The argument list [-p -n 20] on one device: the loop reaches [-n] at
    index 1 and the parse fails. *)
Lemma C1_exponent_range_witness :
  Parse.parse_args 1 ["-p"; "-n"; "20"] = Throw "n > 16 is not supported".
Proof.
  refine (proj1 (proj2 (C1_exponent_range 1 ["-p"; "-n"; "20"]
            (Parse.set_i (Parse.set_display Parse.init true) 1) 20 _ _ _ _ _)) _).
  - exact (Parse.visits_next 1 ["-p"; "-n"; "20"] Parse.init
             (Parse.set_display Parse.init true)
             (Parse.visits_init _ _) (le_S _ _ (le_S _ _ (le_n 1))) eq_refl).
  - simpl. lia.
  - reflexivity.
  - reflexivity.
  - lia.
  - lia.
Defined.

(** C6, as the specification words it, fails: the index 4294967296 is not
    below the count of one device, and [-d 4294967296] is accepted:
    [atoi] hands back 0, and device 0 is selected. *)
Lemma C6_device_index_counterexample :
  Str.of_int 4294967296 = "4294967296" /\
  1 <= 4294967296 /\
  Parse.parse_args 1 ["-d"; "4294967296"]
  = Ok (Parse.set_d (Parse.set_i Parse.init 2) 0) /\
  In (EvEngine LocalPlatform 0)
     (fst (main (plain_env false 1)
             ["genefer20"; "-d"; "4294967296"; "-n"; "10"])).
Proof.
  split; [reflexivity|]. split; [lia|]. split; [reflexivity|].
  vm_compute. auto 10.
Qed.

(** C6, amended. Wherever the argument loop comes upon a device flag
    ([-d...] or [--device...]) whose value is an integer [z] written in
    decimal that fits a 32-bit [int]: for [z] from 0 on and not below the
    device count the whole parse fails with "invalid device number"; for
    [z] from 0 on and below the count the pass succeeds, selects device
    [z] and the loop goes on; and for a negative [z] the parse fails with
    "invalid device number" too (the count being at most 2^63). *)
Theorem C6_device_index (deviceCount : Z) (args : list string) (st : Parse.locals)
  (flag : string) (z : Z) :
  Parse.visits deviceCount args st ->
  (Parse.l_i st < Parse.size args)%nat ->
  (flag = "-d" /\ Str.substr (Parse.arg_at args (Parse.l_i st)) 0 2 = "-d") \/
  (flag = "--device" /\
   Str.substr (Parse.arg_at args (Parse.l_i st)) 0 8 = "--device") ->
  fst (Parse.value_of args flag (Parse.l_i st)) = Str.of_int z ->
  - 2 ^ 31 <= z < 2 ^ 31 ->
  (0 <= z -> deviceCount <= z ->
   Parse.parse_args deviceCount args = Throw "invalid device number") /\
  (0 <= z -> z < deviceCount ->
   exists st', Parse.body deviceCount args st = Ok st' /\
               Parse.l_d st' = z /\
               Parse.visits deviceCount args (Parse.set_i st' (S (Parse.l_i st')))) /\
  (z < 0 -> deviceCount <= 2 ^ 63 ->
   Parse.parse_args deviceCount args = Throw "invalid device number").
Proof.
  intros Hv Hlt Hflag Hval Hz.
  set (d := Libc.to_size_t z).
  assert (Hb : Parse.body deviceCount args st =
               if d >=? deviceCount then Throw "invalid device number"
               else Ok (Parse.set_d
                          (Parse.set_i st (snd (Parse.value_of args flag (Parse.l_i st))))
                          d)).
  { unfold d. rewrite <- (NumeralFacts.atoi_of_int z Hz), <- Hval.
    destruct Hflag as [[-> H]|[-> H]].
    - exact (ParseFacts.body_d deviceCount args st H).
    - exact (ParseFacts.body_device deviceCount args st H). }
  split; [|split].
  - intros H0 Hge. apply (ParseFacts.visits_throw _ _ st); auto.
    rewrite Hb. unfold d. rewrite NumeralFacts.to_size_t_small by lia.
    destruct (Z.geb_spec z deviceCount); [reflexivity|lia].
  - intros H0 Hin. unfold d in Hb.
    rewrite NumeralFacts.to_size_t_small in Hb by lia.
    destruct (Z.geb_spec z deviceCount); [lia|].
    eexists. split; [exact Hb|]. split; [reflexivity|].
    eapply Parse.visits_next; eauto.
  - intros Hneg Hcnt. apply (ParseFacts.visits_throw _ _ st); auto.
    rewrite Hb. unfold d. rewrite NumeralFacts.to_size_t_wraps by lia.
    destruct (Z.geb_spec (z + 2 ^ 64) deviceCount); [reflexivity|lia].
Qed.

(** [--device 2] on two devices is refused; the loop meets the flag first. *)
Lemma C6_device_index_witness :
  Parse.parse_args 2 ["--device"; "2"] = Throw "invalid device number".
Proof.
  refine (proj1 (C6_device_index 2 ["--device"; "2"] Parse.init "--device" 2
                   (Parse.visits_init _ _) _ _ _ _) _ _).
  - simpl. lia.
  - right. split; reflexivity.
  - reflexivity.
  - lia.
  - lia.
  - lia.
Defined.

(** C9. An exponent flag that is the last token ([-n] alone), or whose
    value does not start with a number, is read as 0 and refused with
    "n < 8 is not supported"; a value made of digits followed by other
    text is read as its digits and accepted when they are in range, as
    [12abc] is. *)
Theorem C9_atoi_values :
  (forall deviceCount args st,
      Parse.visits deviceCount args st ->
      Parse.arg_at args (Parse.l_i st) = "-n" ->
      S (Parse.l_i st) = Parse.size args ->
      Parse.parse_args deviceCount args = Throw "n < 8 is not supported") /\
  (forall deviceCount args st,
      Parse.visits deviceCount args st ->
      (Parse.l_i st < Parse.size args)%nat ->
      Str.substr (Parse.arg_at args (Parse.l_i st)) 0 2 = "-n" ->
      Libc.starts_number (fst (Parse.value_of args "-n" (Parse.l_i st))) = false ->
      Parse.parse_args deviceCount args = Throw "n < 8 is not supported") /\
  (forall deviceCount args st ds g,
      Parse.visits deviceCount args st ->
      (Parse.l_i st < Parse.size args)%nat ->
      Str.substr (Parse.arg_at args (Parse.l_i st)) 0 2 = "-n" ->
      fst (Parse.value_of args "-n" (Parse.l_i st)) = (ds ++ g)%string ->
      ds <> "" -> Libc.all_digits ds = true -> Libc.starts_with_digit g = false ->
      8 <= Libc.atoi ds <= 16 ->
      exists st', Parse.body deviceCount args st = Ok st' /\
                  Parse.l_n st' = Libc.atoi ds) /\
  Libc.atoi "12abc" = 12 /\
  Parse.parse_args 1 ["-n"; "12abc"] =
  Ok (Parse.set_n (Parse.set_i Parse.init 2) 12).
Proof.
  assert (Hzero : forall deviceCount args st,
      Parse.visits deviceCount args st ->
      (Parse.l_i st < Parse.size args)%nat ->
      Str.substr (Parse.arg_at args (Parse.l_i st)) 0 2 = "-n" ->
      Libc.atoi (fst (Parse.value_of args "-n" (Parse.l_i st))) = 0 ->
      Parse.parse_args deviceCount args = Throw "n < 8 is not supported").
  { intros deviceCount args st Hv Hlt Hn H0.
    apply (ParseFacts.visits_throw _ _ st); auto.
    rewrite (ParseFacts.body_n deviceCount args st Hn). cbv zeta.
    rewrite H0. reflexivity. }
  split; [|split; [|split; [|split]]].
  - intros deviceCount args st Hv Harg Hlast.
    apply (Hzero deviceCount args st Hv); [lia| rewrite Harg; reflexivity |].
    unfold Parse.value_of. rewrite Harg.
    replace (Nat.ltb (Parse.l_i st + 1) (Parse.size args)) with false
      by (symmetry; apply Nat.ltb_ge; lia).
    reflexivity.
  - intros deviceCount args st Hv Hlt Hn Hs.
    apply (Hzero deviceCount args st Hv Hlt Hn).
    apply LibcFacts.atoi_no_number. exact Hs.
  - intros deviceCount args st ds g Hv Hlt Hn Hval Hne Hd Hg Hr.
    pose proof (ParseFacts.body_n deviceCount args st Hn) as Hb.
    cbv zeta in Hb. rewrite Hval in Hb.
    rewrite (LibcFacts.atoi_trailing ds g Hne Hd Hg) in Hb.
    destruct (Z.ltb_spec (Libc.atoi ds) 8); [lia|].
    destruct (Z.gtb_spec (Libc.atoi ds) 16); [lia|].
    eexists. split; [exact Hb|reflexivity].
  - reflexivity.
  - reflexivity.
Qed.

(** [-p -n]: the exponent flag is the last token; [-n abc]: the value is
    no number; [-n 12abc]: the digits [12] are kept. *)
Lemma C9_atoi_values_witness :
  Parse.parse_args 1 ["-p"; "-n"] = Throw "n < 8 is not supported" /\
  Parse.parse_args 1 ["-n"; "abc"] = Throw "n < 8 is not supported" /\
  (exists st', Parse.body 1 ["-n"; "12abc"] Parse.init = Ok st' /\
               Parse.l_n st' = Libc.atoi "12").
Proof.
  destruct C9_atoi_values as (Hlast & Hnonum & Htrail & _).
  split; [|split].
  - refine (Hlast 1 ["-p"; "-n"]
              (Parse.set_i (Parse.set_display Parse.init true) 1) _ _ _).
    + exact (Parse.visits_next 1 ["-p"; "-n"] Parse.init
               (Parse.set_display Parse.init true)
               (Parse.visits_init _ _) (le_S _ _ (le_n 1)) eq_refl).
    + reflexivity.
    + reflexivity.
  - refine (Hnonum 1 ["-n"; "abc"] Parse.init (Parse.visits_init _ _) _ _ _).
    + simpl. lia.
    + reflexivity.
    + reflexivity.
  - refine (Htrail 1 ["-n"; "12abc"] Parse.init "12" "abc"
              (Parse.visits_init _ _) _ _ _ _ _ _ _).
    + simpl. lia.
    + reflexivity.
    + reflexivity.
    + discriminate.
    + reflexivity.
    + reflexivity.
    + vm_compute. split; discriminate.
Defined.

(** ** The paths through [run] *)

Module RunFacts.

Lemma is_banner_flag_spec arg :
  is_banner_flag arg = true <->
  Str.at_ arg 0 = "-"%char /\
  (Str.at_ arg 1 = "v"%char \/ Str.at_ arg 1 = "V"%char).
Proof.
  unfold is_banner_flag.
  rewrite andb_true_iff, orb_true_iff.
  repeat match goal with
         | |- context [Ascii.eqb ?a ?b] => destruct (Ascii.eqb_spec a b)
         end; intuition congruence.
Qed.

Lemma banner_requested_spec args :
  banner_requested args = true <->
  exists arg, In arg args /\ is_banner_flag arg = true.
Proof.
  induction args as [|a args IH]; simpl.
  - split; [discriminate|]. intros (arg & [] & _).
  - destruct (is_banner_flag a) eqn:Ha.
    + split; [|reflexivity]. intros _. exists a. auto.
    + rewrite IH. split.
      * intros (arg & Hin & Hb). exists arg. auto.
      * intros (arg & [<-|Hin] & Hb); [congruence|]. exists arg. auto.
Qed.

(** Starting the grid client calls the client only. *)
Lemma grid_init_quiet E b :
  filter is_output (fst (grid_init E b)) = [] /\
  filter is_device_event (fst (grid_init E b)) = [] /\
  filter is_engine_event (fst (grid_init E b)) = [] /\
  filter is_finish (fst (grid_init E b)) = [] /\
  engines (fst (grid_init E b)) = [].
Proof.
  unfold grid_init.
  destruct b; [|repeat split].
  destruct (boinc_init_ret E =? 0); [|repeat split].
  destruct (BOINC E); [|repeat split].
  destruct (boinc_is_standalone E); [repeat split|].
  simpl.
  destruct (negb (boinc_ids_err E =? 0) || (boinc_ids_device E =? 0)
            || (boinc_ids_platform E =? 0)); repeat split.
Qed.

(** The identities [run] holds once the client is started: those the
    client assigned, both non-null, in a managed run; null ones otherwise. *)
Lemma grid_init_ids E args t pid did :
  grid_init E (bBoinc_of E args) = (t, Ok (pid, did)) ->
  if managed E args
  then pid = boinc_ids_platform E /\ did = boinc_ids_device E /\
       pid <> 0 /\ did <> 0
  else pid = 0 /\ did = 0.
Proof.
  unfold managed, grid_init, bBoinc_of.
  destruct (BOINC E) eqn:HB; simpl.
  2:{ intros H; injection H as _ <- <-. split; reflexivity. }
  destruct (existsb (fun arg => (arg =? "-boinc")%string) args); simpl.
  2:{ intros H; injection H as _ <- <-. split; reflexivity. }
  destruct (boinc_init_ret E =? 0); simpl; [|discriminate].
  destruct (boinc_is_standalone E); simpl.
  { intros H; injection H as _ <- <-. split; reflexivity. }
  destruct (Z.eqb_spec (boinc_ids_err E) 0); simpl; [|discriminate].
  destruct (Z.eqb_spec (boinc_ids_device E) 0); simpl; [discriminate|].
  destruct (Z.eqb_spec (boinc_ids_platform E) 0); simpl; [discriminate|].
  intros H; injection H as _ <- <-. auto.
Qed.

(** [run] is the start of the grid client followed by the rest. *)
Lemma run_unfold E args :
  run E args =
  match grid_init E (bBoinc_of E args) with
  | (t, Throw m) => (EvPioSetBoinc (bBoinc_of E args) :: t, Throw m)
  | (t, Ok ids) =>
      (EvPioSetBoinc (bBoinc_of E args) :: t
         ++ fst (after_grid_init E args (bBoinc_of E args) ids),
       snd (after_grid_init E args (bBoinc_of E args) ids))
  end.
Proof.
  unfold run, bind, emit.
  destruct (grid_init E (bBoinc_of E args)) as [t [ids|m]]; [|reflexivity].
  destruct (after_grid_init E args (bBoinc_of E args) ids). reflexivity.
Qed.

(** The banner exit. *)
Lemma after_banner E args b ids :
  banner_requested args = true ->
  after_grid_init E args b ids =
  (EvPioError (header E args false) false
     :: (if b then [EvBoincFinish EXIT_SUCCESS] else []),
   Ok tt).
Proof.
  intros H. unfold after_grid_init. rewrite H. destruct b; reflexivity.
Qed.

(** No device. *)
Lemma after_no_device E args b ids :
  banner_requested args = false -> deviceCount E = 0 ->
  after_grid_init E args b ids =
  (EvPioPrint (header E args true)
     :: (if Nat.eqb (List.length args) 0 then [EvPioPrint (usage E)] else [])
     ++ [EvPlatform; EvDisplayDevices],
   Throw "No OpenCL device").
Proof.
  intros H H0. unfold after_grid_init. rewrite H, H0.
  destruct (Nat.eqb (List.length args) 0); reflexivity.
Qed.

(** An argument is refused. *)
Lemma after_parse_throw E args b ids m :
  banner_requested args = false -> deviceCount E <> 0 ->
  Parse.parse_args (deviceCount E) args = Throw m ->
  after_grid_init E args b ids =
  ([EvPioPrint (header E args true); EvPlatform; EvDisplayDevices], Throw m).
Proof.
  intros H H0 Hp. unfold after_grid_init. rewrite H.
  destruct args as [|a args]; [discriminate Hp|].
  destruct (Z.eqb_spec (deviceCount E) 0); [contradiction|].
  rewrite Hp. reflexivity.
Qed.

(** No exponent: the return of line 214. *)
Lemma after_noop E args b ids st :
  banner_requested args = false -> deviceCount E <> 0 -> args <> [] ->
  Parse.parse_args (deviceCount E) args = Ok st -> Parse.l_n st = 0 ->
  after_grid_init E args b ids =
  ([EvPioPrint (header E args true); EvPlatform; EvDisplayDevices], Ok tt).
Proof.
  intros H H0 Hne Hp Hn. unfold after_grid_init. rewrite H.
  destruct args as [|a args]; [contradiction|].
  destruct (Z.eqb_spec (deviceCount E) 0); [contradiction|].
  rewrite Hp. simpl. rewrite Hn. reflexivity.
Qed.

(** An exponent: the engine is built and run. *)
Lemma after_compute E args b ids st :
  banner_requested args = false -> deviceCount E <> 0 ->
  Parse.parse_args (deviceCount E) args = Ok st -> Parse.l_n st <> 0 ->
  after_grid_init E args b ids =
  (EvPioPrint (header E args true) :: EvPlatform :: EvDisplayDevices
     :: fst (compute E b ids st),
   snd (compute E b ids st)).
Proof.
  intros H H0 Hp Hn. unfold after_grid_init. rewrite H.
  destruct args as [|a args].
  { exfalso. apply Hn. injection Hp as <-. reflexivity. }
  destruct (Z.eqb_spec (deviceCount E) 0); [contradiction|].
  rewrite Hp. simpl.
  destruct (Z.eqb_spec (Parse.l_n st) 0); [contradiction|].
  destruct (compute E b ids st). reflexivity.
Qed.

(** A refused argument ends the process: the error line and a failure
    status. *)
Lemma main_parse_failure E argv0 args t ids m :
  grid_init E (bBoinc_of E args) = (t, Ok ids) ->
  banner_requested args = false -> deviceCount E <> 0 ->
  Parse.parse_args (deviceCount E) args = Throw m ->
  main E (argv0 :: args) =
  (EvPioSetBoinc (bBoinc_of E args) :: t
     ++ [EvPioPrint (header E args true); EvPlatform; EvDisplayDevices;
         EvPioError (Str.endl ++ "error: " ++ m ++ "." ++ Str.endl)%string true],
   EXIT_FAILURE).
Proof.
  intros Hgrid Hb Hc Hp. unfold main. simpl tl.
  rewrite run_unfold, Hgrid.
  rewrite (after_parse_throw E args _ _ m Hb Hc Hp).
  cbn [fst snd]. rewrite app_comm_cons, <- app_assoc. reflexivity.
Qed.

(** Every way through the engine part: each call may raise an error. *)
Ltac each_fault E :=
  unfold compute, call, bind, emit, throw, ret; simpl;
  repeat match goal with
         | |- context [fault E ?s] => destruct (fault E s); simpl
         | |- context [if ?b then _ else _] => destruct b; simpl
         end.

(** The engine is built once, on the platform and index of lines 219-221. *)
Lemma compute_engines E b pid did st :
  engines (fst (compute E b (pid, did) st)) =
  [if b && negb (did =? 0) && negb (pid =? 0)
   then (ClientPlatform pid did, 0)
   else (LocalPlatform, Parse.l_d st)].
Proof.
  destruct (b && negb (did =? 0) && negb (pid =? 0)) eqn:Hm;
    unfold compute; rewrite Hm; each_fault E; reflexivity.
Qed.

End RunFacts.

(** ** The banner exit *)

(** C3, as the specification words it, fails in a BOINC build: with
    [-boinc -v] and a client whose [boinc_init] returns 1, [run] throws
    before it looks for [-v]; the process prints the error line, not the
    banner, and exits with failure. *)
Lemma C3_banner_exit_counterexample :
  In "-v" ["-boinc"; "-v"] /\
  main (client_env 1 7 9 1) ["genefer20"; "-boinc"; "-v"] =
  ([EvPioSetBoinc true; EvBoincInit;
    EvPioError (Str.endl ++ "error: boinc_init returned 1." ++ Str.endl)%string true],
   EXIT_FAILURE).
Proof.
  split; [simpl; auto|]. vm_compute. reflexivity.
Qed.

(** C3, amended. For every argument list that holds [-v] or [-V], in any
    position and among any other tokens, and every run in which the start
    of the grid client (made first, when grid mode is asked for) does not
    fail: after that start the process writes the banner, once, on the
    diagnostic channel and nothing else on either channel, tells the client
    it has finished (with success) when in grid mode, enumerates no
    device, builds no engine, and exits with success. *)
Theorem C3_banner_exit (E : env) (argv0 : string) (args : list string)
  (a : string) (t : list event) (ids : Z * Z) :
  In a args -> a = "-v" \/ a = "-V" ->
  grid_init E (bBoinc_of E args) = (t, Ok ids) ->
  main E (argv0 :: args) =
  (EvPioSetBoinc (bBoinc_of E args) :: t
     ++ EvPioError (header E args false) false
     :: (if bBoinc_of E args then [EvBoincFinish EXIT_SUCCESS] else []),
   EXIT_SUCCESS) /\
  filter is_output (fst (main E (argv0 :: args))) =
  [EvPioError (header E args false) false] /\
  filter is_device_event (fst (main E (argv0 :: args))) = [] /\
  filter is_engine_event (fst (main E (argv0 :: args))) = [].
Proof.
  intros Hin Ha Hgrid.
  assert (Hb : banner_requested args = true).
  { apply RunFacts.banner_requested_spec. exists a. split; [exact Hin|].
    destruct Ha as [->| ->]; reflexivity. }
  assert (Hmain : main E (argv0 :: args) =
    (EvPioSetBoinc (bBoinc_of E args) :: t
       ++ EvPioError (header E args false) false
       :: (if bBoinc_of E args then [EvBoincFinish EXIT_SUCCESS] else []),
     EXIT_SUCCESS)).
  { unfold main. simpl tl. rewrite RunFacts.run_unfold, Hgrid.
    rewrite RunFacts.after_banner by exact Hb. reflexivity. }
  destruct (RunFacts.grid_init_quiet E (bBoinc_of E args)) as (Ho & Hd & He & _).
  rewrite Hgrid in Ho, Hd, He. simpl in Ho, Hd, He.
  rewrite Hmain. cbn [fst].
  split; [reflexivity|].
  cbn [filter is_output is_device_event is_engine_event].
  rewrite !filter_app, Ho, Hd, He.
  destruct (bBoinc_of E args); repeat split.
Qed.

(** [-n 10 -V] on one device, outside grid mode. *)
Lemma C3_banner_exit_witness :
  main (plain_env false 1) ["genefer20"; "-n"; "10"; "-V"] =
  ([EvPioSetBoinc false;
    EvPioError (header (plain_env false 1) ["-n"; "10"; "-V"] false) false],
   EXIT_SUCCESS).
Proof.
  exact (proj1 (C3_banner_exit (plain_env false 1) "genefer20" ["-n"; "10"; "-V"]
                  "-V" [] (0, 0)
                  (or_intror (or_intror (or_introl eq_refl)))
                  (or_intror eq_refl) eq_refl)).
Defined.

(** C10. The banner test reads two characters: every argument that starts
    with [-v] or [-V] ([-verbose] and [-version] among them) makes [run]
    take the banner exit as soon as the grid client is started, whatever
    else the list holds, while [--device] does not; so such a token is not
    passed over as an unknown flag is: [-x -n 10] runs the engine,
    [-verbose -n 10] does not. *)
Theorem C10_banner_prefix :
  (forall arg, is_banner_flag arg = true <->
               Str.at_ arg 0 = "-"%char /\
               (Str.at_ arg 1 = "v"%char \/ Str.at_ arg 1 = "V"%char)) /\
  (forall E args arg,
      In arg args ->
      Str.at_ arg 0 = "-"%char ->
      Str.at_ arg 1 = "v"%char \/ Str.at_ arg 1 = "V"%char ->
      banner_requested args = true /\
      run E args =
      match grid_init E (bBoinc_of E args) with
      | (t, Throw m) => (EvPioSetBoinc (bBoinc_of E args) :: t, Throw m)
      | (t, Ok _) =>
          (EvPioSetBoinc (bBoinc_of E args) :: t
             ++ EvPioError (header E args false) false
             :: (if bBoinc_of E args then [EvBoincFinish EXIT_SUCCESS] else []),
           Ok tt)
      end) /\
  is_banner_flag "-verbose" = true /\
  is_banner_flag "-version" = true /\
  is_banner_flag "--device" = false /\
  engines (fst (run (plain_env false 1) ["-verbose"; "-n"; "10"])) = [] /\
  engines (fst (run (plain_env false 1) ["-x"; "-n"; "10"])) = [(LocalPlatform, 0)].
Proof.
  split; [exact RunFacts.is_banner_flag_spec|].
  split; [|repeat split].
  intros E args arg Hin H0 H1.
  assert (Hb : banner_requested args = true).
  { apply RunFacts.banner_requested_spec. exists arg. split; [exact Hin|].
    apply RunFacts.is_banner_flag_spec. auto. }
  split; [exact Hb|].
  rewrite RunFacts.run_unfold.
  destruct (grid_init E (bBoinc_of E args)) as [t [ids|m]]; [|reflexivity].
  rewrite RunFacts.after_banner by exact Hb. reflexivity.
Qed.

(** [-p -version] outside grid mode: the banner and nothing more. *)
Lemma C10_banner_prefix_witness :
  run (plain_env false 1) ["-p"; "-version"] =
  ([EvPioSetBoinc false;
    EvPioError (header (plain_env false 1) ["-p"; "-version"] false) false],
   Ok tt).
Proof.
  exact (proj2 (proj1 (proj2 C10_banner_prefix)
                  (plain_env false 1) ["-p"; "-version"] "-version"
                  (or_intror (or_introl eq_refl)) eq_refl (or_introl eq_refl))).
Defined.

(** ** The device the engine is built on *)

(** C7. Whenever [run] comes to build the engine (the grid client started,
    no banner flag, a device present, the arguments accepted with an
    exponent), it builds it once: in a managed grid run (grid mode on and
    non-null platform and device identities held from the client) from
    those identities, with device index 0, whatever [-d] or [--device]
    said; in any other run from the local platform with the device index
    the arguments gave.  And no engine is built in any other way. *)
Theorem C7_effective_device (E : env) (args : list string) :
  (forall t ids st,
      grid_init E (bBoinc_of E args) = (t, Ok ids) ->
      banner_requested args = false ->
      deviceCount E <> 0 ->
      Parse.parse_args (deviceCount E) args = Ok st ->
      Parse.l_n st <> 0 ->
      engines (fst (run E args)) =
      [if managed E args
       then (ClientPlatform (boinc_ids_platform E) (boinc_ids_device E), 0)
       else (LocalPlatform, Parse.l_d st)] /\
      managed E args =
        bBoinc_of E args && negb (snd ids =? 0) && negb (fst ids =? 0) /\
      (managed E args = true ->
       fst ids = boinc_ids_platform E /\ snd ids = boinc_ids_device E /\
       boinc_ids_platform E <> 0 /\ boinc_ids_device E <> 0)) /\
  (forall p d,
      In (p, d) (engines (fst (run E args))) ->
      exists st,
        Parse.parse_args (deviceCount E) args = Ok st /\
        (p, d) =
        if managed E args
        then (ClientPlatform (boinc_ids_platform E) (boinc_ids_device E), 0)
        else (LocalPlatform, Parse.l_d st)).
Proof.
  assert (Hbuilt : forall t ids st,
      grid_init E (bBoinc_of E args) = (t, Ok ids) ->
      banner_requested args = false ->
      deviceCount E <> 0 ->
      Parse.parse_args (deviceCount E) args = Ok st ->
      Parse.l_n st <> 0 ->
      engines (fst (run E args)) =
      [if managed E args
       then (ClientPlatform (boinc_ids_platform E) (boinc_ids_device E), 0)
       else (LocalPlatform, Parse.l_d st)] /\
      managed E args =
        bBoinc_of E args && negb (snd ids =? 0) && negb (fst ids =? 0) /\
      (managed E args = true ->
       fst ids = boinc_ids_platform E /\ snd ids = boinc_ids_device E /\
       boinc_ids_platform E <> 0 /\ boinc_ids_device E <> 0)).
  { intros t [pid did] st Hgrid Hb Hc Hp Hn.
    pose proof (RunFacts.grid_init_ids E args t pid did Hgrid) as Hids.
    destruct (RunFacts.grid_init_quiet E (bBoinc_of E args)) as (_ & _ & _ & _ & Hq).
    rewrite Hgrid in Hq. simpl in Hq.
    rewrite RunFacts.run_unfold, Hgrid.
    rewrite (RunFacts.after_compute E args _ _ st Hb Hc Hp Hn).
    pose proof (RunFacts.compute_engines E (bBoinc_of E args) pid did st) as Hce.
    unfold engines in *. cbn [fst flat_map app].
    rewrite flat_map_app, Hq. cbn [flat_map app]. rewrite Hce.
    unfold managed in *.
    destruct (bBoinc_of E args); simpl in *.
    - destruct (boinc_is_standalone E); simpl in *.
      + destruct Hids as [-> ->]. simpl.
        split; [reflexivity|split; [reflexivity|discriminate]].
      + destruct Hids as (-> & -> & Hp0 & Hd0).
        destruct (Z.eqb_spec (boinc_ids_device E) 0); [contradiction|].
        destruct (Z.eqb_spec (boinc_ids_platform E) 0); [contradiction|].
        simpl. split; [reflexivity|split; [reflexivity|auto]].
    - split; [reflexivity|split; [reflexivity|discriminate]]. }
  split; [exact Hbuilt|].
  intros p d Hin.
  rewrite RunFacts.run_unfold in Hin.
  destruct (RunFacts.grid_init_quiet E (bBoinc_of E args)) as (_ & _ & _ & _ & Hq).
  destruct (grid_init E (bBoinc_of E args)) as [t [ids|m]] eqn:Hgrid;
    simpl in Hq.
  2:{ cbn [fst] in Hin. simpl in Hin. rewrite Hq in Hin. destruct Hin. }
  destruct (banner_requested args) eqn:Hb.
  { rewrite RunFacts.after_banner in Hin by exact Hb.
    cbn [fst] in Hin. unfold engines in *. simpl in Hin.
    rewrite flat_map_app, Hq in Hin.
    destruct (bBoinc_of E args); simpl in Hin; destruct Hin. }
  destruct (Z.eq_dec (deviceCount E) 0) as [Hc|Hc].
  { rewrite RunFacts.after_no_device in Hin by assumption.
    cbn [fst] in Hin. unfold engines in *. simpl in Hin.
    rewrite flat_map_app, Hq in Hin.
    destruct (Nat.eqb (List.length args) 0); simpl in Hin; destruct Hin. }
  destruct (Parse.parse_args (deviceCount E) args) as [st|m] eqn:Hp.
  2:{ rewrite (RunFacts.after_parse_throw E args _ _ m Hb Hc Hp) in Hin.
      cbn [fst] in Hin. unfold engines in *. simpl in Hin.
      rewrite flat_map_app, Hq in Hin. destruct Hin. }
  exists st. split; [reflexivity|].
  destruct (Z.eq_dec (Parse.l_n st) 0) as [Hn|Hn].
  { destruct args as [|a0 args'].
    - unfold after_grid_init in Hin. rewrite Hb in Hin. simpl in Hin.
      destruct (deviceCount E =? 0); simpl in Hin;
        unfold engines in *; rewrite flat_map_app, Hq in Hin;
        simpl in Hin; destruct Hin.
    - rewrite (RunFacts.after_noop E _ _ _ st Hb Hc) in Hin;
        [|discriminate|exact Hp|exact Hn].
      cbn [fst] in Hin. unfold engines in *. simpl in Hin.
      rewrite flat_map_app, Hq in Hin. destruct Hin. }
  destruct (Hbuilt t ids st eq_refl eq_refl Hc eq_refl Hn) as [Heng _].
  rewrite RunFacts.run_unfold, Hgrid in Heng.
  rewrite Heng in Hin. destruct Hin as [<-|[]]. reflexivity.
Qed.

(** A managed run with [-d 1]: the client's platform 7 and device 9 are
    used, with index 0. *)
Lemma C7_effective_device_witness :
  engines (fst (run (client_env 0 7 9 2) ["-boinc"; "-d"; "1"; "-n"; "10"])) =
  [(ClientPlatform 7 9, 0)].
Proof.
  exact (proj1 (proj1 (C7_effective_device (client_env 0 7 9 2)
                         ["-boinc"; "-d"; "1"; "-n"; "10"])
                  [EvBoincInit; EvBoincIsStandalone; EvBoincGetOpenclIds] (7, 9)
                  (Parse.set_n (Parse.set_d (Parse.set_i Parse.init 5) 1) 10)
                  eq_refl eq_refl
                  (fun H : 2 = 0 => Z.neq_sym _ _ (Z.lt_neq 0 2 eq_refl) H)
                  eq_refl
                  (fun H : 10 = 0 => Z.neq_sym _ _ (Z.lt_neq 0 10 eq_refl) H))).
Defined.

(** ** Runs without an exponent *)

(** What [run] does when no token starts with [-n]: it never gets past the
    return of line 214. *)
Lemma run_without_exponent (E : env) (args : list string) :
  args <> [] ->
  (forall a, In a args -> Str.substr a 0 2 <> "-n") ->
  run E args =
  match grid_init E (bBoinc_of E args) with
  | (t, Throw m) => (EvPioSetBoinc (bBoinc_of E args) :: t, Throw m)
  | (t, Ok _) =>
      if banner_requested args then
        (EvPioSetBoinc (bBoinc_of E args) :: t
           ++ EvPioError (header E args false) false
           :: (if bBoinc_of E args then [EvBoincFinish EXIT_SUCCESS] else []),
         Ok tt)
      else
        (EvPioSetBoinc (bBoinc_of E args) :: t
           ++ [EvPioPrint (header E args true); EvPlatform; EvDisplayDevices],
         if deviceCount E =? 0 then Throw "No OpenCL device"
         else match Parse.parse_args (deviceCount E) args with
              | Throw m => Throw m
              | Ok _ => Ok tt
              end)
  end.
Proof.
  intros Hne Hno.
  rewrite RunFacts.run_unfold.
  destruct (grid_init E (bBoinc_of E args)) as [t [ids|m]]; [|reflexivity].
  destruct (banner_requested args) eqn:Hb.
  { rewrite RunFacts.after_banner by exact Hb. reflexivity. }
  destruct (Z.eqb_spec (deviceCount E) 0) as [Hc|Hc].
  { rewrite RunFacts.after_no_device by assumption.
    destruct args as [|a args']; [contradiction|]. reflexivity. }
  pose proof (ParseFacts.loop_no_n (deviceCount E) args Hno
                (Parse.size args) Parse.init) as Hloop.
  fold (Parse.parse_args (deviceCount E) args) in Hloop.
  destruct (Parse.parse_args (deviceCount E) args) as [st|m] eqn:Hp.
  - rewrite (RunFacts.after_noop E args _ _ st Hb Hc Hne Hp Hloop). reflexivity.
  - rewrite (RunFacts.after_parse_throw E args _ _ m Hb Hc Hp). reflexivity.
Qed.

(** C4, as the specification words it, fails: [-d 1] on a machine with one
    device holds no [-n], and the process exits with failure. *)
Lemma C4_no_exponent_counterexample :
  ["-d"; "1"] <> [] /\
  (forall a, In a ["-d"; "1"] -> Str.substr a 0 2 <> "-n") /\
  main (plain_env false 1) ["genefer20"; "-d"; "1"] =
  ([EvPioSetBoinc false;
    EvPioPrint (header (plain_env false 1) ["-d"; "1"] true);
    EvPlatform; EvDisplayDevices;
    EvPioError (Str.endl ++ "error: invalid device number." ++ Str.endl)%string true],
   EXIT_FAILURE) /\
  EXIT_FAILURE <> EXIT_SUCCESS.
Proof.
  split; [discriminate|]. split.
  - intros a [<-|[<-|[]]]; discriminate.
  - split; [vm_compute; reflexivity|discriminate].
Qed.

(** The outcome of a run without an exponent, in terms of the parse. *)
Lemma no_exponent_outcome (E : env) (argv0 : string) (args : list string) :
  args <> [] ->
  (forall a, In a args -> Str.substr a 0 2 <> "-n") ->
  filter is_engine_event (fst (main E (argv0 :: args))) = [] /\
  (snd (main E (argv0 :: args)) = EXIT_SUCCESS <->
   (exists t ids, grid_init E (bBoinc_of E args) = (t, Ok ids)) /\
   (banner_requested args = true \/
    (deviceCount E <> 0 /\
     exists st, Parse.parse_args (deviceCount E) args = Ok st))) /\
  (forall m, Parse.parse_args (deviceCount E) args = Throw m ->
             m = "invalid device number").
Proof.
  intros Hne Hno.
  pose proof (run_without_exponent E args Hne Hno) as Hrun.
  destruct (RunFacts.grid_init_quiet E (bBoinc_of E args)) as (_ & _ & He & _).
  pose proof (ParseFacts.loop_no_n (deviceCount E) args Hno
                (Parse.size args) Parse.init) as Hloop.
  fold (Parse.parse_args (deviceCount E) args) in Hloop.
  unfold main. simpl tl. rewrite Hrun. clear Hrun.
  destruct (grid_init E (bBoinc_of E args)) as [t [ids|m]]; simpl in He.
  2:{ split; [|split].
      - simpl; rewrite ?filter_app, ?He; reflexivity.
      - cbn [snd]. split; [discriminate|]. intros [(t' & ids' & H) _]. discriminate.
      - intros m' Hm. rewrite Hm in Hloop. exact Hloop. }
  destruct (banner_requested args).
  { split; [|split].
    - simpl; rewrite ?filter_app, ?He.
      destruct (bBoinc_of E args); reflexivity.
    - cbn [snd]. split; [|reflexivity]. intros _. split; eauto.
    - intros m' Hm. rewrite Hm in Hloop. exact Hloop. }
  destruct (Z.eqb_spec (deviceCount E) 0) as [Hc|Hc].
  { split; [|split].
    - simpl; rewrite ?filter_app, ?He; reflexivity.
    - cbn [snd]. split; [discriminate|].
      intros [_ [H|[H _]]]; [discriminate|contradiction].
    - intros m' Hm. rewrite Hm in Hloop. exact Hloop. }
  destruct (Parse.parse_args (deviceCount E) args) as [st|m].
  - split; [|split].
    + simpl; rewrite ?filter_app, ?He; reflexivity.
    + cbn [snd]. split; [|reflexivity]. intros _. split; eauto.
    + discriminate.
  - split; [|split].
    + simpl; rewrite ?filter_app, ?He; reflexivity.
    + cbn [snd]. split; [discriminate|].
      intros [_ [H|[_ [st H]]]]; discriminate.
    + intros m' Hm. injection Hm as <-. exact Hloop.
Qed.

Module AcceptFacts.
Import Parse.

(** Apart from the exponent test, a pass throws at a device flag only, on
    an index that is not below the count. *)
Lemma body_throw_device cnt args st m :
  Str.substr (arg_at args (l_i st)) 0 2 <> "-n" ->
  body cnt args st = Throw m ->
  exists flag,
    device_flag_at args st flag /\
    cnt <= Libc.to_size_t (Libc.atoi (fst (value_of args flag (l_i st)))).
Proof.
  intros Hn. unfold body, device_flag_at.
  set (arg := arg_at args (l_i st)) in *.
  destruct (String.eqb_spec (Str.substr arg 0 2) "-n") as [E|_]; [contradiction|].
  destruct (Str.substr arg 0 2 =? "-f")%string.
  { destruct (value_of args "-f" (l_i st)) as [v i']. discriminate. }
  destruct (String.eqb_spec (Str.substr arg 0 2) "-d") as [Hd|_].
  { destruct (value_of args "-d" (l_i st)) as [v i'] eqn:Hv.
    destruct (Z.geb_spec (Libc.to_size_t (Libc.atoi v)) cnt); [|discriminate].
    intros _. exists "-d". rewrite Hv. cbn [fst]. split; [left; auto|lia]. }
  destruct (String.eqb_spec (Str.substr arg 0 8) "--device") as [Hl|_].
  { destruct (value_of args "--device" (l_i st)) as [v i'] eqn:Hv.
    destruct (Z.geb_spec (Libc.to_size_t (Libc.atoi v)) cnt); [|discriminate].
    intros _. exists "--device". rewrite Hv. cbn [fst]. split; [right; auto|lia]. }
  discriminate.
Qed.

(** A pass at a device flag throws when the index is not below the count. *)
Lemma body_device_flag cnt args st flag :
  device_flag_at args st flag ->
  cnt <= Libc.to_size_t (Libc.atoi (fst (value_of args flag (l_i st)))) ->
  body cnt args st = Throw "invalid device number".
Proof.
  intros [[-> H]|[-> H]] Hge.
  - rewrite (ParseFacts.body_d cnt args st H). cbv zeta.
    destruct (Z.geb_spec
                (Libc.to_size_t (Libc.atoi (fst (value_of args "-d" (l_i st))))) cnt);
      [reflexivity|lia].
  - rewrite (ParseFacts.body_device cnt args st H). cbv zeta.
    destruct (Z.geb_spec
                (Libc.to_size_t (Libc.atoi (fst (value_of args "--device" (l_i st)))))
                cnt); [reflexivity|lia].
Qed.

Section NoExponent.

Variable cnt : Z.
Variable args : list string.
Hypothesis no_n : forall a, In a args -> Str.substr a 0 2 <> "-n".

Lemma accepted_loop :
  devices_accepted cnt args ->
  forall fuel st, visits cnt args st -> exists r, loop cnt args fuel st = Ok r.
Proof.
  intros Hacc. induction fuel as [|fuel IH]; intros st Hv; simpl.
  - destruct (Nat.ltb (l_i st) (size args)); eauto.
  - destruct (Nat.ltb_spec (l_i st) (size args)) as [Hlt|Hge]; [|eauto].
    destruct (body cnt args st) as [st1|m] eqn:Hb.
    + apply IH. exact (visits_next cnt args st st1 Hv Hlt Hb).
    + exfalso.
      destruct (body_throw_device cnt args st m
                  (no_n _ (ParseFacts.arg_at_In args _ Hlt)) Hb)
        as (flag & Hflag & Hge).
      pose proof (Hacc st flag Hv Hlt Hflag). lia.
Qed.

(** Without an exponent flag, the parse succeeds exactly when every
    device value read passes the device test. *)
Lemma parse_accepted_iff :
  (exists st, parse_args cnt args = Ok st) <-> devices_accepted cnt args.
Proof.
  split.
  - intros [r Hr] st flag Hv Hlt Hflag.
    destruct (Z.lt_ge_cases
                (Libc.to_size_t (Libc.atoi (fst (value_of args flag (l_i st))))) cnt)
      as [H|H]; [exact H|].
    pose proof (body_device_flag cnt args st flag Hflag H) as Hb.
    rewrite (ParseFacts.visits_throw cnt args st _ Hv Hlt Hb) in Hr. discriminate.
  - intros Hacc. apply (accepted_loop Hacc). constructor.
Qed.

End NoExponent.

End AcceptFacts.

(** C4, amended. For every non-empty argument list in which no token starts
    with [-n], whatever other flags it holds: the engine is never built or
    driven; the process exits with success exactly when the grid client (if
    asked for) starts and either a banner flag is present or a device
    exists and every device value that the loop reads is, once converted
    by [atoi] and by the assignment to the [size_t] index, below the device
    count (so [-d 4294967296], read as 0, passes on one device, and
    [-d -1] is refused on four); and the only error the arguments
    themselves can cause is "invalid device number". *)
Theorem C4_no_exponent (E : env) (argv0 : string) (args : list string) :
  args <> [] ->
  (forall a, In a args -> Str.substr a 0 2 <> "-n") ->
  filter is_engine_event (fst (main E (argv0 :: args))) = [] /\
  (snd (main E (argv0 :: args)) = EXIT_SUCCESS <->
   (exists t ids, grid_init E (bBoinc_of E args) = (t, Ok ids)) /\
   (banner_requested args = true \/
    (deviceCount E <> 0 /\ devices_accepted (deviceCount E) args))) /\
  (forall m, Parse.parse_args (deviceCount E) args = Throw m ->
             m = "invalid device number") /\
  snd (main (plain_env false 1) ["genefer20"; "-d"; "4294967296"]) = EXIT_SUCCESS /\
  snd (main (plain_env false 4) ["genefer20"; "-d"; "-1"]) = EXIT_FAILURE.
Proof.
  intros Hne Hno.
  destruct (no_exponent_outcome E argv0 args Hne Hno) as (H1 & H2 & H3).
  split; [exact H1|]. split; [|split; [exact H3|split; reflexivity]].
  rewrite H2.
  rewrite (AcceptFacts.parse_accepted_iff (deviceCount E) args Hno).
  reflexivity.
Qed.

(** [-f list.txt -d 1 -p] on two devices: nothing is computed, the exit
    status is success, and the one device value read, 1, is below 2. *)
Lemma C4_no_exponent_witness :
  filter is_engine_event
    (fst (main (plain_env false 2) ["genefer20"; "-f"; "list.txt"; "-d"; "1"; "-p"]))
  = [] /\
  devices_accepted 2 ["-f"; "list.txt"; "-d"; "1"; "-p"].
Proof.
  assert (Hne : ["-f"; "list.txt"; "-d"; "1"; "-p"] <> []) by discriminate.
  assert (Hno : forall a, In a ["-f"; "list.txt"; "-d"; "1"; "-p"] ->
                          Str.substr a 0 2 <> "-n").
  { intros a [<-|[<-|[<-|[<-|[<-|[]]]]]]; discriminate. }
  destruct (C4_no_exponent (plain_env false 2) "genefer20"
              ["-f"; "list.txt"; "-d"; "1"; "-p"] Hne Hno) as (H1 & H2 & _).
  split; [exact H1|].
  destruct (proj1 H2 eq_refl) as [_ [Hb|[_ Hacc]]]; [discriminate Hb|exact Hacc].
Defined.

(** ** No arguments and no device *)

(** C5, as the specification words it, fails: with no argument and no
    device the usage text is printed, and then the run fails. *)
Lemma C5_no_device_counterexample :
  run (plain_env false 0) [] =
  ([EvPioSetBoinc false;
    EvPioPrint (header (plain_env false 0) [] true);
    EvPioPrint (usage (plain_env false 0));
    EvPlatform; EvDisplayDevices],
   Throw "No OpenCL device") /\
  In (EvPioPrint (usage (plain_env false 0))) (fst (run (plain_env false 0) [])).
Proof.
  split; [reflexivity|]. simpl. auto.
Qed.

(** C5, amended. With an empty argument list and a catalog of zero
    devices, the run prints the banner and the usage text, enumerates the
    devices and then fails with "No OpenCL device"; the process reports
    that error and exits with failure. *)
Theorem C5_no_device (E : env) (argv0 : string) :
  deviceCount E = 0 ->
  run E [] =
  ([EvPioSetBoinc false;
    EvPioPrint (header E [] true);
    EvPioPrint (usage E);
    EvPlatform; EvDisplayDevices],
   Throw "No OpenCL device") /\
  main E [argv0] =
  ([EvPioSetBoinc false;
    EvPioPrint (header E [] true);
    EvPioPrint (usage E);
    EvPlatform; EvDisplayDevices;
    EvPioError (Str.endl ++ "error: No OpenCL device." ++ Str.endl)%string true],
   EXIT_FAILURE).
Proof.
  intros Hc.
  assert (Hrun : run E [] =
    ([EvPioSetBoinc false; EvPioPrint (header E [] true); EvPioPrint (usage E);
      EvPlatform; EvDisplayDevices], Throw "No OpenCL device")).
  { rewrite RunFacts.run_unfold.
    assert (Hb : bBoinc_of E [] = false)
      by (unfold bBoinc_of; destruct (BOINC E); reflexivity).
    rewrite Hb. cbn [grid_init ret].
    rewrite RunFacts.after_no_device by (reflexivity || exact Hc).
    reflexivity. }
  split; [exact Hrun|].
  unfold main. simpl tl. rewrite Hrun. reflexivity.
Qed.

Lemma C5_no_device_witness :
  snd (run (plain_env true 0) []) = Throw "No OpenCL device".
Proof.
  exact (f_equal snd (proj1 (C5_no_device (plain_env true 0) "genefer20" eq_refl))).
Defined.

(** ** The completion call of the grid client *)

(** On the banner exit of a grid run, [boinc_finish] is called once. *)
Lemma finish_on_banner_exit (E : env) (args : list string) t ids :
  bBoinc_of E args = true ->
  grid_init E true = (t, Ok ids) ->
  banner_requested args = true ->
  finish_count (fst (run E args)) = 1%nat /\ snd (run E args) = Ok tt.
Proof.
  intros HB Hgrid Hb.
  destruct (RunFacts.grid_init_quiet E true) as (_ & _ & _ & Hf & _).
  rewrite Hgrid in Hf. simpl in Hf.
  rewrite RunFacts.run_unfold, HB, Hgrid.
  rewrite RunFacts.after_banner by exact Hb.
  unfold finish_count. simpl. rewrite filter_app, Hf. split; reflexivity.
Qed.

(** At the end of a grid run that computed, [boinc_finish] is called once. *)
Lemma finish_on_completion (E : env) (args : list string) t ids st :
  bBoinc_of E args = true ->
  grid_init E true = (t, Ok ids) ->
  banner_requested args = false ->
  deviceCount E <> 0 ->
  Parse.parse_args (deviceCount E) args = Ok st ->
  Parse.l_n st <> 0 ->
  (forall s, fault E s = None) ->
  finish_count (fst (run E args)) = 1%nat /\ snd (run E args) = Ok tt.
Proof.
  intros HB Hgrid Hb Hc Hp Hn Hfault.
  destruct (RunFacts.grid_init_quiet E true) as (_ & _ & _ & Hf & _).
  rewrite Hgrid in Hf. simpl in Hf.
  rewrite RunFacts.run_unfold, HB, Hgrid.
  rewrite (RunFacts.after_compute E args _ _ st Hb Hc Hp Hn).
  destruct ids as [pid did].
  unfold finish_count, compute, call, bind, emit, throw, ret.
  rewrite !Hfault. simpl.
  destruct (negb (did =? 0) && negb (pid =? 0));
    destruct (is_empty (Parse.l_filename st)); simpl;
    rewrite ?Hfault; simpl; rewrite filter_app, Hf; split; reflexivity.
Qed.

(** C2. The code at the point where the claim fails: in a grid run whose
    arguments give no exponent, [run] returns at line 214, and the process
    exits with success without having called [boinc_finish] and without
    having written an error. *)
Theorem C2_noop_return_skips_finish (E : env) (argv0 : string)
  (args : list string) t ids st :
  bBoinc_of E args = true ->
  grid_init E true = (t, Ok ids) ->
  banner_requested args = false ->
  deviceCount E <> 0 ->
  Parse.parse_args (deviceCount E) args = Ok st ->
  Parse.l_n st = 0 ->
  main E (argv0 :: args) =
  (EvPioSetBoinc true :: t
     ++ [EvPioPrint (header E args true); EvPlatform; EvDisplayDevices],
   EXIT_SUCCESS) /\
  finish_count (fst (main E (argv0 :: args))) = 0%nat.
Proof.
  intros HB Hgrid Hb Hc Hp Hn.
  destruct (RunFacts.grid_init_quiet E true) as (_ & _ & _ & Hf & _).
  rewrite Hgrid in Hf. simpl in Hf.
  assert (Hne : args <> []).
  { intros ->. unfold bBoinc_of in HB. destruct (BOINC E); discriminate. }
  assert (Hmain : main E (argv0 :: args) =
    (EvPioSetBoinc true :: t
       ++ [EvPioPrint (header E args true); EvPlatform; EvDisplayDevices],
     EXIT_SUCCESS)).
  { unfold main. simpl tl. rewrite RunFacts.run_unfold, HB, Hgrid.
    rewrite (RunFacts.after_noop E args _ _ st Hb Hc Hne Hp Hn). reflexivity. }
  split; [exact Hmain|].
  rewrite Hmain. unfold finish_count. simpl. rewrite filter_app, Hf. reflexivity.
Qed.

(** [-boinc -p] under a managing client that assigned platform 7 and
    device 9. *)
Lemma C2_noop_return_skips_finish_witness :
  finish_count (fst (main (client_env 0 7 9 1) ["genefer20"; "-boinc"; "-p"])) = 0%nat.
Proof.
  exact (proj2 (C2_noop_return_skips_finish (client_env 0 7 9 1) "genefer20"
                  ["-boinc"; "-p"]
                  [EvBoincInit; EvBoincIsStandalone; EvBoincGetOpenclIds] (7, 9)
                  (Parse.set_display (Parse.set_i Parse.init 2) true)
                  eq_refl eq_refl eq_refl
                  (fun H : 1 = 0 => Z.neq_sym _ _ (Z.lt_neq 0 1 eq_refl) H)
                  eq_refl eq_refl)).
Defined.

(** ** Cancellation *)

Module CancellationFacts.
Import Cancellation.

Lemma genefer_quit_idem g : genefer_quit (genefer_quit g) = genefer_quit g.
Proof. reflexivity. Qed.

(** A stop request runs [quit], and nothing else. *)
Lemma deliver_stop o r p :
  is_stop o r = true ->
  exists sig, deliver (application o) r p = Some (quit sig p).
Proof.
  destruct o, r as [sig|ctrl]; simpl; try discriminate.
  - intros _. exists 1. reflexivity.
  - intros H. exists sig. unfold SIGINT, SIGTERM in *.
    destruct (Z.eqb_spec sig 2) as [->|]; [reflexivity|].
    destruct (Z.eqb_spec sig 15) as [->|]; [reflexivity|discriminate].
Qed.

(** After [k + 1] stop requests the controller is the one [quit] leaves
    after the first, and [quit] was called [k + 1] times. *)
Lemma deliver_all_stops o rs : forall p,
  forallb (is_stop o) rs = true ->
  exists p',
    deliver_all (application o) rs p = Some p' /\
    instance p' = match rs with
                  | [] => instance p
                  | _ :: _ => genefer_quit (instance p)
                  end /\
    handled p' = handled p ++ repeat CallGeneferQuit (List.length rs).
Proof.
  induction rs as [|r rs IH]; intros p Hall.
  - exists p. simpl. rewrite app_nil_r. auto.
  - simpl in Hall. apply andb_prop in Hall as [Hr Hrs].
    destruct (deliver_stop o r p Hr) as [sig Hd].
    destruct (IH (quit sig p) Hrs) as (p' & Hall' & Hi & Hh).
    exists p'. cbn [deliver_all]. rewrite Hd. split; [exact Hall'|]. split.
    + rewrite Hi. destruct rs; reflexivity.
    + rewrite Hh. simpl. rewrite <- app_assoc. reflexivity.
Qed.

End CancellationFacts.

(** C8. Delivering the stop request (SIGINT or SIGTERM, or a console
    control event) N >= 1 times leaves the cancellation flag set: every
    delivery is handled, each runs [genefer::quit()] once and does nothing
    else, the controller after N deliveries is the one left by the first
    (flag set, nothing else changed), the flag is set after each of the
    deliveries on the way, and one more delivery changes nothing. *)
Theorem C8_stop_idempotent (o : Cancellation.os)
  (rs : list Cancellation.request) (p : Cancellation.process) :
  rs <> [] ->
  forallb (Cancellation.is_stop o) rs = true ->
  exists p',
    Cancellation.deliver_all (Cancellation.application o) rs p = Some p' /\
    Cancellation.poll p' = true /\
    Cancellation.instance p' =
      Cancellation.genefer_quit (Cancellation.instance p) /\
    Cancellation.handled p' =
      Cancellation.handled p
        ++ repeat Cancellation.CallGeneferQuit (List.length rs) /\
    (forall rs1 rs2, rs = rs1 ++ rs2 -> rs1 <> [] ->
       exists p1,
         Cancellation.deliver_all (Cancellation.application o) rs1 p = Some p1 /\
         Cancellation.poll p1 = true) /\
    (forall r, Cancellation.is_stop o r = true ->
       exists p'',
         Cancellation.deliver (Cancellation.application o) r p' = Some p'' /\
         Cancellation.instance p'' = Cancellation.instance p').
Proof.
  intros Hne Hall.
  destruct (CancellationFacts.deliver_all_stops o rs p Hall) as (p' & Hd & Hi & Hh).
  destruct rs as [|r0 rs0]; [contradiction|].
  exists p'. split; [exact Hd|]. split; [|split; [exact Hi|split; [exact Hh|split]]].
  - unfold Cancellation.poll. rewrite Hi. reflexivity.
  - intros rs1 rs2 Heq Hne1.
    rewrite Heq in Hall. rewrite forallb_app in Hall.
    apply andb_prop in Hall as [Hall1 _].
    destruct (CancellationFacts.deliver_all_stops o rs1 p Hall1) as (p1 & Hd1 & Hi1 & _).
    exists p1. split; [exact Hd1|].
    unfold Cancellation.poll. rewrite Hi1.
    destruct rs1; [contradiction|reflexivity].
  - intros r Hr.
    destruct (CancellationFacts.deliver_stop o r p' Hr) as [sig Hs].
    exists (Cancellation.quit sig p'). split; [exact Hs|].
    simpl. rewrite Hi. reflexivity.
Qed.

(** SIGINT, SIGTERM and SIGINT again, on a controller that is running
    exponent 12. *)
Lemma C8_stop_idempotent_witness :
  exists p',
    Cancellation.deliver_all (Cancellation.application Cancellation.Posix)
      [Cancellation.Signal 2; Cancellation.Signal 15; Cancellation.Signal 2]
      {| Cancellation.instance :=
           {| Cancellation.g_quit := false; Cancellation.g_n := 12;
              Cancellation.g_isBoinc := false |};
         Cancellation.handled := [] |} = Some p' /\
    Cancellation.poll p' = true.
Proof.
  destruct (C8_stop_idempotent Cancellation.Posix
              [Cancellation.Signal 2; Cancellation.Signal 15; Cancellation.Signal 2]
              {| Cancellation.instance :=
                   {| Cancellation.g_quit := false; Cancellation.g_n := 12;
                      Cancellation.g_isBoinc := false |};
                 Cancellation.handled := [] |})
    as (p' & Hd & Hpoll & _).
  - discriminate.
  - reflexivity.
  - exists p'. split; [exact Hd|exact Hpoll].
Defined.

(** ** The scenarios of the specification *)

(** [-n 10 -p] on one device: the benchmark, on device 0. *)
Example scenario_benchmark :
  main (plain_env false 1) ["genefer20"; "-n"; "10"; "-p"] =
  ([EvPioSetBoinc false;
    EvPioPrint (header (plain_env false 1) ["-n"; "10"; "-p"] true);
    EvPlatform; EvDisplayDevices; EvGenSetBoinc false;
    EvEngine LocalPlatform 0; EvGenInit 10 false; EvBench; EvRelease],
   EXIT_SUCCESS).
Proof. vm_compute. reflexivity. Qed.

(** [-n 12 -f list.txt -d 1] on two devices: the file is checked on
    device 1, without display. *)
Example scenario_check_file :
  main (plain_env false 2) ["genefer20"; "-n"; "12"; "-f"; "list.txt"; "-d"; "1"] =
  ([EvPioSetBoinc false;
    EvPioPrint (header (plain_env false 2) ["-n"; "12"; "-f"; "list.txt"; "-d"; "1"] true);
    EvPlatform; EvDisplayDevices; EvGenSetBoinc false;
    EvEngine LocalPlatform 1; EvGenInit 12 false;
    EvCheckFile "list.txt" false; EvRelease],
   EXIT_SUCCESS).
Proof. vm_compute. reflexivity. Qed.

(** [-n 20]: refused, with the error line and a failure status. *)
Example scenario_exponent_out_of_range :
  main (plain_env false 1) ["genefer20"; "-n"; "20"] =
  ([EvPioSetBoinc false;
    EvPioPrint (header (plain_env false 1) ["-n"; "20"] true);
    EvPlatform; EvDisplayDevices;
    EvPioError (Str.endl ++ "error: n > 16 is not supported." ++ Str.endl)%string true],
   EXIT_FAILURE).
Proof. vm_compute. reflexivity. Qed.

(** No argument, one device: the usage text and the catalog, no error. *)
Example scenario_discovery :
  main (plain_env false 1) ["genefer20"] =
  ([EvPioSetBoinc false;
    EvPioPrint (header (plain_env false 1) [] true);
    EvPioPrint (usage (plain_env false 1));
    EvPlatform; EvDisplayDevices],
   EXIT_SUCCESS).
Proof. vm_compute. reflexivity. Qed.

(** * Further properties of the code *)

(** ** The argument loop as a scan from left to right *)

Module ScanFacts.
Import Parse.

Lemma set_i_same st : set_i st (l_i st) = st.
Proof. destruct st; reflexivity. Qed.

(** [value_of] looks at the tokens from [i] on, and nowhere else. *)
Lemma value_of_suffix args args' i i' flag :
  skipn i args = skipn i' args' ->
  value_of args' flag i' =
  (fst (value_of args flag i), (snd (value_of args flag i) - i + i')%nat).
Proof.
  intros Hs. unfold value_of, arg_at, size.
  pose proof (nth_skipn i args 0 "") as H0.
  pose proof (nth_skipn i' args' 0 "") as H0'.
  pose proof (nth_skipn i args 1 "") as H1.
  pose proof (nth_skipn i' args' 1 "") as H1'.
  rewrite Nat.add_0_r in H0, H0'.
  rewrite <- H0, <- H0', <- H1, <- H1', <- Hs.
  assert (Hlen : Nat.ltb (i' + 1) (List.length args')
                 = Nat.ltb (i + 1) (List.length args)).
  { pose proof (length_skipn i args) as L. pose proof (length_skipn i' args') as L'.
    rewrite <- Hs in L'.
    destruct (Nat.ltb_spec (i' + 1) (List.length args'));
      destruct (Nat.ltb_spec (i + 1) (List.length args)); try reflexivity; lia. }
  rewrite Hlen.
  destruct ((nth 0 (skipn i args) "" =? flag)%string
            && Nat.ltb (i + 1) (List.length args)); simpl; f_equal; lia.
Qed.

(** One pass reads the list through the token at [i] and through
    [value_of] only: two passes that agree on those do the same, each at
    its own position. *)
Lemma body_ext cnt args args' st st' :
  arg_at args (l_i st) = arg_at args' (l_i st') ->
  (forall flag, In flag value_flags ->
     value_of args' flag (l_i st') =
     (fst (value_of args flag (l_i st)),
      (snd (value_of args flag (l_i st)) - l_i st + l_i st')%nat)) ->
  values st = values st' ->
  body cnt args' st' =
  match body cnt args st with
  | Ok r => Ok (set_i r (l_i r - l_i st + l_i st'))
  | Throw m => Throw m
  end.
Proof.
  intros Harg Hval Hv.
  destruct st as [i d n f p], st' as [i' d' n' f' p'].
  unfold values in Hv. simpl in Hv, Harg, Hval.
  injection Hv as <- <- <- <-.
  unfold body. cbn [l_i]. rewrite <- Harg.
  set (arg := arg_at args i) in *.
  destruct (Str.substr arg 0 2 =? "-n")%string.
  { rewrite (Hval "-n") by (simpl; auto).
    destruct (value_of args "-n" i) as [v j]. cbn [fst snd].
    destruct (Libc.atoi v <? 8); [reflexivity|].
    destruct (Libc.atoi v >? 16); [reflexivity|].
    destruct (arg =? "-p")%string; reflexivity. }
  destruct (Str.substr arg 0 2 =? "-f")%string.
  { rewrite (Hval "-f") by (simpl; auto).
    destruct (value_of args "-f" i) as [v j]. cbn [fst snd].
    destruct (arg =? "-p")%string; reflexivity. }
  destruct (Str.substr arg 0 2 =? "-d")%string.
  { rewrite (Hval "-d") by (simpl; auto).
    destruct (value_of args "-d" i) as [v j]. cbn [fst snd].
    destruct (Libc.to_size_t (Libc.atoi v) >=? cnt); [reflexivity|].
    destruct (arg =? "-p")%string; reflexivity. }
  destruct (Str.substr arg 0 8 =? "--device")%string.
  { rewrite (Hval "--device") by (simpl; auto 6).
    destruct (value_of args "--device" i) as [v j]. cbn [fst snd].
    destruct (Libc.to_size_t (Libc.atoi v) >=? cnt); [reflexivity|].
    destruct (arg =? "-p")%string; reflexivity. }
  destruct (arg =? "-p")%string; unfold set_display, set_i; cbn;
    rewrite Nat.sub_diag; reflexivity.
Qed.

(** From two positions with the same tokens ahead and the same values
    gathered, the loop gives the same error or the same values. *)
Lemma loop_suffix cnt args args' fuel : forall st st',
  skipn (l_i st) args = skipn (l_i st') args' ->
  values st = values st' ->
  agree (loop cnt args fuel st) (loop cnt args' fuel st').
Proof.
  induction fuel as [|fuel IH]; intros st st' Hs Hv.
  - simpl. destruct (Nat.ltb (l_i st) (size args));
      destruct (Nat.ltb (l_i st') (size args')); exact Hv.
  - assert (Hlt : Nat.ltb (l_i st') (size args') = Nat.ltb (l_i st) (size args)).
    { pose proof (length_skipn (l_i st) args) as L.
      pose proof (length_skipn (l_i st') args') as L'.
      rewrite <- Hs in L'. unfold size.
      destruct (Nat.ltb_spec (l_i st') (List.length args'));
        destruct (Nat.ltb_spec (l_i st) (List.length args)); try reflexivity; lia. }
    simpl. rewrite Hlt.
    destruct (Nat.ltb (l_i st) (size args)); [|exact Hv].
    assert (Harg : arg_at args (l_i st) = arg_at args' (l_i st')).
    { unfold arg_at.
      pose proof (nth_skipn (l_i st) args 0 "") as H0.
      pose proof (nth_skipn (l_i st') args' 0 "") as H0'.
      rewrite Nat.add_0_r in H0, H0'. rewrite <- H0, <- H0', Hs. reflexivity. }
    rewrite (body_ext cnt args args' st st' Harg
               (fun flag _ => value_of_suffix args args' _ _ flag Hs) Hv).
    destruct (body cnt args st) as [r|m] eqn:Hb; [|reflexivity].
    apply ParseFacts.body_index in Hb.
    apply IH.
    + cbn [l_i set_i].
      replace (S (l_i r)) with (S (l_i r - l_i st) + l_i st)%nat by lia.
      replace (S (l_i r - l_i st + l_i st'))
        with (S (l_i r - l_i st) + l_i st')%nat by lia.
      rewrite <- !skipn_skipn, Hs. reflexivity.
    + destruct r; reflexivity.
Qed.

(** The same for the whole parse, from two visited positions. *)
Lemma parse_suffix cnt args args' st st' :
  visits cnt args st -> visits cnt args' st' ->
  skipn (l_i st) args = skipn (l_i st') args' ->
  values st = values st' ->
  agree (parse_args cnt args) (parse_args cnt args').
Proof.
  intros Hv Hv' Hs Hval.
  rewrite (ParseFacts.visits_parse cnt args st Hv).
  rewrite (ParseFacts.visits_parse cnt args' st' Hv').
  assert (Hf : (size args - l_i st = size args' - l_i st')%nat).
  { unfold size. rewrite <- !length_skipn, Hs. reflexivity. }
  rewrite Hf. apply loop_suffix; assumption.
Qed.

End ScanFacts.

Module PrefixFacts.
Import Parse.

(** The pass at a file flag. *)
Lemma body_f cnt args st :
  Str.substr (arg_at args (l_i st)) 0 2 = "-f" ->
  body cnt args st =
  Ok (set_filename (set_i st (snd (value_of args "-f" (l_i st))))
        (fst (value_of args "-f" (l_i st)))).
Proof.
  intros H. unfold body. rewrite H. simpl.
  destruct (value_of args "-f" (l_i st)) as [v i']. simpl.
  rewrite ParseFacts.not_p by (rewrite H; discriminate). reflexivity.
Qed.

(** The pass at a token that no branch knows changes nothing. *)
Lemma body_unknown cnt args st :
  is_unknown (arg_at args (l_i st)) = true -> body cnt args st = Ok st.
Proof.
  unfold is_unknown, body. intros H.
  repeat (apply andb_prop in H as [H ?]).
  repeat match goal with
         | Hx : negb ?b = true |- _ => apply negb_true_iff in Hx; rewrite Hx
         end.
  reflexivity.
Qed.

(** After the pass at a token that is exactly a value flag, the position
    is the one [value_of] gives. *)
Lemma body_index_flag cnt args st st1 :
  body cnt args st = Ok st1 ->
  In (arg_at args (l_i st)) value_flags ->
  l_i st1 = snd (value_of args (arg_at args (l_i st)) (l_i st)).
Proof.
  intros Hb [Ha|[Ha|[Ha|[Ha|[]]]]]; rewrite <- Ha.
  - rewrite ParseFacts.body_n in Hb by (rewrite <- Ha; reflexivity).
    cbv zeta in Hb.
    destruct (Libc.atoi (fst (value_of args "-n" (l_i st))) <? 8); [discriminate|].
    destruct (Libc.atoi (fst (value_of args "-n" (l_i st))) >? 16); [discriminate|].
    injection Hb as <-. reflexivity.
  - rewrite body_f in Hb by (rewrite <- Ha; reflexivity).
    injection Hb as <-. reflexivity.
  - rewrite ParseFacts.body_d in Hb by (rewrite <- Ha; reflexivity).
    cbv zeta in Hb.
    destruct (Libc.to_size_t (Libc.atoi (fst (value_of args "-d" (l_i st)))) >=? cnt);
      [discriminate|].
    injection Hb as <-. reflexivity.
  - rewrite ParseFacts.body_device in Hb by (rewrite <- Ha; reflexivity).
    cbv zeta in Hb.
    destruct (Libc.to_size_t (Libc.atoi (fst (value_of args "--device" (l_i st))))
              >=? cnt); [discriminate|].
    injection Hb as <-. reflexivity.
Qed.

(** A token that is none of the value flags is never followed by the
    reading of the next token. *)
Lemma value_of_other args flag i :
  arg_at args i <> flag ->
  value_of args flag i =
  (Str.substr_from (arg_at args i) (String.length flag), i).
Proof.
  intros H. unfold value_of.
  destruct (String.eqb_spec (arg_at args i) flag); [contradiction|reflexivity].
Qed.

(** What the loop does before it reaches position [length pre] depends on
    the tokens of [pre] only, as long as a token follows them. *)
Lemma visits_prefix cnt pre x y st :
  x <> [] ->
  visits cnt (pre ++ x) st -> (l_i st <= List.length pre)%nat ->
  visits cnt (pre ++ y) st.
Proof.
  intros Hx Hv. induction Hv as [|st st1 Hv IH Hlt Hb]; intros Hle.
  - constructor.
  - cbn [l_i set_i] in Hle.
    pose proof (ParseFacts.body_index _ _ _ _ Hb) as Hidx.
    assert (Hi : (l_i st < List.length pre)%nat) by lia.
    specialize (IH ltac:(lia)).
    assert (Hsize : (List.length pre < size (pre ++ x))%nat).
    { unfold size. rewrite length_app. destruct x; [contradiction|simpl; lia]. }
    assert (Harg : arg_at (pre ++ x) (l_i st) = arg_at (pre ++ y) (l_i st)).
    { unfold arg_at. rewrite !app_nth1 by lia. reflexivity. }
    assert (Hval : forall flag, In flag value_flags ->
              value_of (pre ++ y) flag (l_i st) =
              (fst (value_of (pre ++ x) flag (l_i st)),
               (snd (value_of (pre ++ x) flag (l_i st)) - l_i st + l_i st)%nat)).
    { intros flag Hflag.
      destruct (String.eqb_spec (arg_at (pre ++ x) (l_i st)) flag) as [Heq|Hneq].
      - assert (Hin : In (arg_at (pre ++ x) (l_i st)) value_flags)
          by (rewrite Heq; exact Hflag).
        pose proof (body_index_flag _ _ _ _ Hb Hin) as Hpos.
        rewrite Heq in Hpos.
        unfold value_of in *. rewrite <- Harg, Heq, String.eqb_refl in *.
        cbn [andb] in *.
        destruct (Nat.ltb_spec (l_i st + 1) (size (pre ++ x))) as [_|Hge]; [|lia].
        cbn [snd fst] in *.
        assert (Hnext : (l_i st + 1 < List.length pre)%nat) by lia.
        destruct (Nat.ltb_spec (l_i st + 1) (size (pre ++ y))) as [_|Hge];
          [|unfold size in Hge; rewrite length_app in Hge; lia].
        unfold arg_at. rewrite !app_nth1 by lia. f_equal. lia.
      - rewrite value_of_other by (rewrite <- Harg; exact Hneq).
        rewrite value_of_other by exact Hneq.
        rewrite Harg. cbn [fst snd]. f_equal. lia. }
    pose proof (ScanFacts.body_ext cnt (pre ++ x) (pre ++ y) st st Harg Hval eq_refl)
      as Hb'.
    rewrite Hb in Hb'.
    replace (l_i st1 - l_i st + l_i st)%nat with (l_i st1) in Hb' by lia.
    rewrite ScanFacts.set_i_same in Hb'.
    apply (visits_next cnt (pre ++ y) st st1); [exact IH| |exact Hb'].
    unfold size. rewrite length_app. lia.
Qed.

End PrefixFacts.

Module TokenFacts.
Import Parse.

Lemma substring_zero s : String.substring 0 0 s = "".
Proof. destruct s; reflexivity. Qed.

Lemma substring_full s : String.substring 0 (String.length s) s = s.
Proof. induction s as [|c s IH]; simpl; [reflexivity|]. rewrite IH. reflexivity. Qed.

Lemma substr_from_append a v :
  Str.substr_from (a ++ v)%string (String.length a) = v.
Proof.
  unfold Str.substr_from. induction a as [|c a IH]; simpl.
  - rewrite Nat.sub_0_r. apply substring_full.
  - exact IH.
Qed.

Lemma append_same a v : (a ++ v)%string = a -> v = "".
Proof.
  induction a as [|c a IH]; simpl; [auto|].
  intros H. injection H as H. auto.
Qed.

Lemma skipn_after_prefix (pre l : list string) :
  skipn (List.length pre) (pre ++ l) = l.
Proof.
  rewrite skipn_app, skipn_all, Nat.sub_diag. reflexivity.
Qed.

Lemma skipn_after_token (pre : list string) a l :
  skipn (S (List.length pre)) (pre ++ a :: l) = l.
Proof.
  change (S (List.length pre)) with (1 + List.length pre)%nat.
  rewrite <- skipn_skipn, skipn_after_prefix. reflexivity.
Qed.

Lemma skipn_after_two (pre : list string) a b l :
  skipn (S (S (List.length pre))) (pre ++ a :: b :: l) = l.
Proof.
  change (S (S (List.length pre))) with (2 + List.length pre)%nat.
  rewrite <- skipn_skipn, skipn_after_prefix. reflexivity.
Qed.

Lemma arg_at_middle (pre : list string) a l :
  arg_at (pre ++ a :: l) (List.length pre) = a.
Proof. unfold arg_at. apply nth_middle. Qed.

Lemma arg_at_second (pre : list string) a b l :
  arg_at (pre ++ a :: b :: l) (List.length pre + 1) = b.
Proof.
  unfold arg_at. rewrite app_nth2 by lia.
  replace (List.length pre + 1 - List.length pre)%nat with 1%nat by lia.
  reflexivity.
Qed.

(** The value of a flag written in one token, [flag ++ v]. *)
Lemma value_of_joined pre flag v post :
  v <> "" ->
  value_of (pre ++ (flag ++ v)%string :: post) flag (List.length pre)
  = (v, List.length pre).
Proof.
  intros Hv. unfold value_of. rewrite arg_at_middle.
  destruct (String.eqb_spec (flag ++ v)%string flag) as [E|_].
  - apply append_same in E. contradiction.
  - cbn [andb]. rewrite substr_from_append. reflexivity.
Qed.

(** The value of a flag written in two tokens, [flag] and [v]. *)
Lemma value_of_split pre flag v post :
  value_of (pre ++ flag :: v :: post) flag (List.length pre)
  = (v, (List.length pre + 1)%nat).
Proof.
  unfold value_of. rewrite arg_at_middle, String.eqb_refl, arg_at_second.
  cbn [andb].
  destruct (Nat.ltb_spec (List.length pre + 1) (size (pre ++ flag :: v :: post)))
    as [_|Hge]; [reflexivity|].
  unfold size in Hge. rewrite length_app in Hge. simpl in Hge. lia.
Qed.

(** Two lists on which one pass from the same visited state gives the
    same error, or the same values with the same tokens left, parse
    alike. *)
Lemma step_agree cnt args1 args2 st :
  visits cnt args1 st -> visits cnt args2 st ->
  (l_i st < size args1)%nat -> (l_i st < size args2)%nat ->
  match body cnt args1 st, body cnt args2 st with
  | Ok r1, Ok r2 =>
      values r1 = values r2 /\
      skipn (S (l_i r1)) args1 = skipn (S (l_i r2)) args2
  | Throw m1, Throw m2 => m1 = m2
  | _, _ => False
  end ->
  agree (parse_args cnt args1) (parse_args cnt args2).
Proof.
  intros Hv1 Hv2 Hl1 Hl2 H.
  destruct (body cnt args1 st) as [r1|m1] eqn:Hb1;
    destruct (body cnt args2 st) as [r2|m2] eqn:Hb2; try contradiction.
  - destruct H as [Hval Hs].
    apply (ScanFacts.parse_suffix cnt args1 args2
             (set_i r1 (S (l_i r1))) (set_i r2 (S (l_i r2)))).
    + exact (visits_next cnt args1 st r1 Hv1 Hl1 Hb1).
    + exact (visits_next cnt args2 st r2 Hv2 Hl2 Hb2).
    + exact Hs.
    + destruct r1, r2; exact Hval.
  - rewrite (ParseFacts.visits_throw cnt args1 st m1 Hv1 Hl1 Hb1).
    rewrite (ParseFacts.visits_throw cnt args2 st m2 Hv2 Hl2 Hb2).
    exact H.
Qed.

End TokenFacts.

(** X1. What is left of a parse depends on two things only: the tokens
    still ahead and the values gathered so far.  From two positions the
    loop reaches, in two argument lists, with the same tokens ahead and the
    same values, both parses end with the same error or with the same
    device, exponent, file name and display flag. *)
Theorem scan_depends_on_rest (deviceCount : Z) (args args' : list string)
  (st st' : Parse.locals) :
  Parse.visits deviceCount args st ->
  Parse.visits deviceCount args' st' ->
  skipn (Parse.l_i st) args = skipn (Parse.l_i st') args' ->
  values st = values st' ->
  agree (Parse.parse_args deviceCount args) (Parse.parse_args deviceCount args').
Proof.
  exact (ScanFacts.parse_suffix deviceCount args args' st st').
Qed.

(** After [-x] in one list and after [-y -z] in another, the tokens
    [-d 1 -n 9] are read alike. *)
Lemma scan_depends_on_rest_witness :
  agree (Parse.parse_args 2 ["-x"; "-d"; "1"; "-n"; "9"])
        (Parse.parse_args 2 ["-y"; "-z"; "-d"; "1"; "-n"; "9"]).
Proof.
  apply (scan_depends_on_rest 2 ["-x"; "-d"; "1"; "-n"; "9"]
           ["-y"; "-z"; "-d"; "1"; "-n"; "9"]
           (Parse.set_i Parse.init 1) (Parse.set_i Parse.init 2)).
  - exact (Parse.visits_next 2 ["-x"; "-d"; "1"; "-n"; "9"] Parse.init Parse.init
             (Parse.visits_init _ _) (le_n_S _ _ (Nat.le_0_l 4)) eq_refl).
  - exact (Parse.visits_next 2 ["-y"; "-z"; "-d"; "1"; "-n"; "9"]
             (Parse.set_i Parse.init 1) (Parse.set_i Parse.init 1)
             (Parse.visits_next 2 ["-y"; "-z"; "-d"; "1"; "-n"; "9"]
                Parse.init Parse.init
                (Parse.visits_init _ _) (le_n_S _ _ (Nat.le_0_l 5)) eq_refl)
             (le_n_S _ _ (le_n_S _ _ (Nat.le_0_l 4))) eq_refl).
  - reflexivity.
  - reflexivity.
Defined.

(** X2. A token that no branch of the loop knows, read where the loop
    looks for a flag, is passed over: the parse of the list gives the same
    error or the same values as the parse of the list without it. *)
Theorem unknown_token_ignored (deviceCount : Z) (pre post : list string)
  (u : string) (st : Parse.locals) :
  Parse.visits deviceCount (pre ++ u :: post) st ->
  Parse.l_i st = List.length pre ->
  is_unknown u = true ->
  agree (Parse.parse_args deviceCount (pre ++ u :: post))
        (Parse.parse_args deviceCount (pre ++ post)).
Proof.
  intros Hv Hi Hu.
  assert (Hv' : Parse.visits deviceCount (pre ++ post) st).
  { apply (PrefixFacts.visits_prefix deviceCount pre (u :: post) post st);
      [discriminate|exact Hv|lia]. }
  assert (Hlt : (Parse.l_i st < Parse.size (pre ++ u :: post))%nat).
  { unfold Parse.size. rewrite length_app. simpl. lia. }
  assert (Hb : Parse.body deviceCount (pre ++ u :: post) st = Ok st).
  { apply PrefixFacts.body_unknown. rewrite Hi, TokenFacts.arg_at_middle. exact Hu. }
  apply (ScanFacts.parse_suffix deviceCount (pre ++ u :: post) (pre ++ post)
           (Parse.set_i st (S (Parse.l_i st))) st).
  - exact (Parse.visits_next _ _ st st Hv Hlt Hb).
  - exact Hv'.
  - cbn [Parse.l_i Parse.set_i]. rewrite Hi.
    rewrite TokenFacts.skipn_after_token, TokenFacts.skipn_after_prefix. reflexivity.
  - destruct st; reflexivity.
Qed.

(** [-n 10 -x -p] reads as [-n 10 -p] does. *)
Lemma unknown_token_ignored_witness :
  agree (Parse.parse_args 1 ["-n"; "10"; "-x"; "-p"])
        (Parse.parse_args 1 ["-n"; "10"; "-p"]).
Proof.
  apply (unknown_token_ignored 1 ["-n"; "10"] ["-p"] "-x"
           (Parse.set_i (Parse.set_n (Parse.set_i Parse.init 1) 10) 2)).
  - exact (Parse.visits_next 1 ["-n"; "10"; "-x"; "-p"] Parse.init
             (Parse.set_n (Parse.set_i Parse.init 1) 10)
             (Parse.visits_init _ _) (le_n_S _ _ (Nat.le_0_l 3)) eq_refl).
  - reflexivity.
  - reflexivity.
Defined.

(** X3. A flag and its value may be written as one token or as two: where
    the loop reads [-n], [-f], [-d] or [--device] with a non-empty value
    [v] attached, the parse gives the same error or the same values as
    with the flag and [v] as two tokens. *)
Theorem joined_or_split_value (deviceCount : Z) (pre post : list string)
  (flag v : string) (st : Parse.locals) :
  Parse.visits deviceCount (pre ++ (flag ++ v)%string :: post) st ->
  Parse.l_i st = List.length pre ->
  In flag value_flags ->
  v <> "" ->
  agree (Parse.parse_args deviceCount (pre ++ (flag ++ v)%string :: post))
        (Parse.parse_args deviceCount (pre ++ flag :: v :: post)).
Proof.
  intros Hv Hi Hflag Hne.
  assert (Hv2 : Parse.visits deviceCount (pre ++ flag :: v :: post) st).
  { apply (PrefixFacts.visits_prefix deviceCount pre
             ((flag ++ v)%string :: post) (flag :: v :: post) st);
      [discriminate|exact Hv|lia]. }
  apply (TokenFacts.step_agree deviceCount _ _ st Hv Hv2).
  { unfold Parse.size. rewrite length_app. simpl. lia. }
  { unfold Parse.size. rewrite length_app. simpl. lia. }
  assert (Hrest : forall r1 r2 : Parse.locals,
             Parse.l_i r1 = List.length pre ->
             Parse.l_i r2 = (List.length pre + 1)%nat ->
             skipn (S (Parse.l_i r1)) (pre ++ (flag ++ v)%string :: post)
             = skipn (S (Parse.l_i r2)) (pre ++ flag :: v :: post)).
  { intros r1 r2 -> ->. rewrite Nat.add_1_r.
    rewrite TokenFacts.skipn_after_token, TokenFacts.skipn_after_two. reflexivity. }
  destruct Hflag as [<-|[<-|[<-|[<-|[]]]]].
  - assert (H1 : Str.substr
                   (Parse.arg_at (pre ++ ("-n" ++ v)%string :: post) (Parse.l_i st))
                   0 2 = "-n").
    { rewrite Hi, TokenFacts.arg_at_middle. unfold Str.substr. simpl.
      rewrite TokenFacts.substring_zero. reflexivity. }
    assert (H2 : Str.substr
                   (Parse.arg_at (pre ++ "-n" :: v :: post) (Parse.l_i st)) 0 2 = "-n").
    { rewrite Hi, TokenFacts.arg_at_middle. reflexivity. }
    rewrite (ParseFacts.body_n _ _ st H1), (ParseFacts.body_n _ _ st H2), Hi.
    rewrite TokenFacts.value_of_joined by exact Hne.
    rewrite TokenFacts.value_of_split. cbv zeta. cbn [fst snd].
    destruct (Libc.atoi v <? 8); [reflexivity|].
    destruct (Libc.atoi v >? 16); [reflexivity|].
    split; [destruct st; reflexivity|]. apply Hrest; reflexivity.
  - assert (H1 : Str.substr
                   (Parse.arg_at (pre ++ ("-f" ++ v)%string :: post) (Parse.l_i st))
                   0 2 = "-f").
    { rewrite Hi, TokenFacts.arg_at_middle. unfold Str.substr. simpl.
      rewrite TokenFacts.substring_zero. reflexivity. }
    assert (H2 : Str.substr
                   (Parse.arg_at (pre ++ "-f" :: v :: post) (Parse.l_i st)) 0 2 = "-f").
    { rewrite Hi, TokenFacts.arg_at_middle. reflexivity. }
    rewrite (PrefixFacts.body_f _ _ st H1), (PrefixFacts.body_f _ _ st H2), Hi.
    rewrite TokenFacts.value_of_joined by exact Hne.
    rewrite TokenFacts.value_of_split. cbn [fst snd].
    split; [destruct st; reflexivity|]. apply Hrest; reflexivity.
  - assert (H1 : Str.substr
                   (Parse.arg_at (pre ++ ("-d" ++ v)%string :: post) (Parse.l_i st))
                   0 2 = "-d").
    { rewrite Hi, TokenFacts.arg_at_middle. unfold Str.substr. simpl.
      rewrite TokenFacts.substring_zero. reflexivity. }
    assert (H2 : Str.substr
                   (Parse.arg_at (pre ++ "-d" :: v :: post) (Parse.l_i st)) 0 2 = "-d").
    { rewrite Hi, TokenFacts.arg_at_middle. reflexivity. }
    rewrite (ParseFacts.body_d _ _ st H1), (ParseFacts.body_d _ _ st H2), Hi.
    rewrite TokenFacts.value_of_joined by exact Hne.
    rewrite TokenFacts.value_of_split. cbv zeta. cbn [fst snd].
    destruct (Libc.to_size_t (Libc.atoi v) >=? deviceCount); [reflexivity|].
    split; [destruct st; reflexivity|]. apply Hrest; reflexivity.
  - assert (H1 : Str.substr
                   (Parse.arg_at (pre ++ ("--device" ++ v)%string :: post)
                      (Parse.l_i st)) 0 8 = "--device").
    { rewrite Hi, TokenFacts.arg_at_middle. unfold Str.substr. simpl.
      rewrite TokenFacts.substring_zero. reflexivity. }
    assert (H2 : Str.substr
                   (Parse.arg_at (pre ++ "--device" :: v :: post) (Parse.l_i st))
                   0 8 = "--device").
    { rewrite Hi, TokenFacts.arg_at_middle. reflexivity. }
    rewrite (ParseFacts.body_device _ _ st H1), (ParseFacts.body_device _ _ st H2), Hi.
    rewrite TokenFacts.value_of_joined by exact Hne.
    rewrite TokenFacts.value_of_split. cbv zeta. cbn [fst snd].
    destruct (Libc.to_size_t (Libc.atoi v) >=? deviceCount); [reflexivity|].
    split; [destruct st; reflexivity|]. apply Hrest; reflexivity.
Qed.

(** [-p --device1 -n9] and [-p --device 1 -n9] on two devices. *)
Lemma joined_or_split_value_witness :
  agree (Parse.parse_args 2 ["-p"; "--device1"; "-n9"])
        (Parse.parse_args 2 ["-p"; "--device"; "1"; "-n9"]).
Proof.
  apply (joined_or_split_value 2 ["-p"] ["-n9"] "--device" "1"
           (Parse.set_i (Parse.set_display Parse.init true) 1)).
  - exact (Parse.visits_next 2 ["-p"; "--device1"; "-n9"] Parse.init
             (Parse.set_display Parse.init true)
             (Parse.visits_init _ _) (le_n_S _ _ (Nat.le_0_l 2)) eq_refl).
  - reflexivity.
  - simpl. auto 6.
  - discriminate.
Defined.

(** ** What a successful pass can have done *)

Module PassFacts.
Import Parse.

(** The six ways through the body of the loop that do not throw. *)
Lemma body_inv cnt args st st' :
  body cnt args st = Ok st' ->
  (Str.substr (arg_at args (l_i st)) 0 2 = "-n" /\
   8 <= Libc.atoi (fst (value_of args "-n" (l_i st))) <= 16 /\
   st' = set_n (set_i st (snd (value_of args "-n" (l_i st))))
           (Libc.atoi (fst (value_of args "-n" (l_i st))))) \/
  (Str.substr (arg_at args (l_i st)) 0 2 = "-f" /\
   st' = set_filename (set_i st (snd (value_of args "-f" (l_i st))))
           (fst (value_of args "-f" (l_i st)))) \/
  (Str.substr (arg_at args (l_i st)) 0 2 = "-d" /\
   Libc.to_size_t (Libc.atoi (fst (value_of args "-d" (l_i st)))) < cnt /\
   st' = set_d (set_i st (snd (value_of args "-d" (l_i st))))
           (Libc.to_size_t (Libc.atoi (fst (value_of args "-d" (l_i st)))))) \/
  (Str.substr (arg_at args (l_i st)) 0 8 = "--device" /\
   Libc.to_size_t (Libc.atoi (fst (value_of args "--device" (l_i st)))) < cnt /\
   st' = set_d (set_i st (snd (value_of args "--device" (l_i st))))
           (Libc.to_size_t (Libc.atoi (fst (value_of args "--device" (l_i st)))))) \/
  (arg_at args (l_i st) = "-p" /\ st' = set_display st true) \/
  (is_unknown (arg_at args (l_i st)) = true /\ st' = st).
Proof.
  intros Hb.
  destruct (String.eqb_spec (Str.substr (arg_at args (l_i st)) 0 2) "-n") as [Hn|Hn].
  { left. rewrite (ParseFacts.body_n cnt args st Hn) in Hb. cbv zeta in Hb.
    destruct (Z.ltb_spec (Libc.atoi (fst (value_of args "-n" (l_i st)))) 8);
      [discriminate|].
    destruct (Z.gtb_spec (Libc.atoi (fst (value_of args "-n" (l_i st)))) 16);
      [discriminate|].
    injection Hb as <-. repeat split; auto; lia. }
  destruct (String.eqb_spec (Str.substr (arg_at args (l_i st)) 0 2) "-f") as [Hf|Hf].
  { right; left. rewrite (PrefixFacts.body_f cnt args st Hf) in Hb.
    injection Hb as <-. auto. }
  destruct (String.eqb_spec (Str.substr (arg_at args (l_i st)) 0 2) "-d") as [Hd|Hd].
  { right; right; left. rewrite (ParseFacts.body_d cnt args st Hd) in Hb.
    cbv zeta in Hb.
    destruct (Z.geb_spec
                (Libc.to_size_t (Libc.atoi (fst (value_of args "-d" (l_i st))))) cnt);
      [discriminate|].
    injection Hb as <-. repeat split; auto. }
  destruct (String.eqb_spec (Str.substr (arg_at args (l_i st)) 0 8) "--device")
    as [Hl|Hl].
  { right; right; right; left.
    rewrite (ParseFacts.body_device cnt args st Hl) in Hb. cbv zeta in Hb.
    destruct (Z.geb_spec
                (Libc.to_size_t (Libc.atoi (fst (value_of args "--device" (l_i st)))))
                cnt); [discriminate|].
    injection Hb as <-. repeat split; auto. }
  apply String.eqb_neq in Hn, Hf, Hd, Hl.
  unfold body in Hb. rewrite Hn, Hf, Hd, Hl in Hb.
  destruct (String.eqb_spec (arg_at args (l_i st)) "-p") as [Hp|Hp].
  - right; right; right; right; left. injection Hb as <-. auto.
  - right; right; right; right; right. injection Hb as <-. split; [|reflexivity].
    unfold is_unknown. rewrite Hn, Hf, Hd, Hl.
    apply String.eqb_neq in Hp. rewrite Hp. reflexivity.
Qed.

Section Invariants.

Variable cnt : Z.
Variable args : list string.

(** An accepted exponent is in range; none leaves 0. *)
Lemma parse_n_range st :
  parse_args cnt args = Ok st -> l_n st = 0 \/ 8 <= l_n st <= 16.
Proof.
  apply (ParseFacts.parse_invariant cnt args
           (fun s => l_n s = 0 \/ 8 <= l_n s <= 16)).
  - left. reflexivity.
  - intros s s' HP _ Hb. cbn [l_n set_i].
    destruct (body_inv _ _ _ _ Hb)
      as [(_ & Hr & ->)|[(_ & ->)|[(_ & _ & ->)|[(_ & _ & ->)|[(_ & ->)|(_ & ->)]]]]];
      simpl; auto.
Qed.

Lemma to_size_t_nonneg z : 0 <= Libc.to_size_t z.
Proof. unfold Libc.to_size_t. apply Z.mod_pos_bound. reflexivity. Qed.

(** The device index is the default 0 or one the device check let pass. *)
Lemma parse_d_range st :
  parse_args cnt args = Ok st -> 0 <= l_d st /\ (l_d st = 0 \/ l_d st < cnt).
Proof.
  apply (ParseFacts.parse_invariant cnt args
           (fun s => 0 <= l_d s /\ (l_d s = 0 \/ l_d s < cnt))).
  - simpl. split; [lia|auto].
  - intros s s' HP _ Hb. cbn [l_d set_i].
    destruct (body_inv _ _ _ _ Hb)
      as [(_ & _ & ->)|[(_ & ->)|[(_ & Hr & ->)|[(_ & Hr & ->)|[(_ & ->)|(_ & ->)]]]]];
      simpl; auto using to_size_t_nonneg.
Qed.

(** Without a token that starts with [-f] the file name stays empty. *)
Lemma parse_no_f st :
  (forall a, In a args -> Str.substr a 0 2 <> "-f") ->
  parse_args cnt args = Ok st -> l_filename st = "".
Proof.
  intros Hno.
  apply (ParseFacts.parse_invariant cnt args (fun s => l_filename s = "")).
  - reflexivity.
  - intros s s' HP Hlt Hb. cbn [l_filename set_i].
    pose proof (Hno _ (ParseFacts.arg_at_In args _ Hlt)) as Hf.
    destruct (body_inv _ _ _ _ Hb)
      as [(_ & _ & ->)|[(H & ->)|[(_ & _ & ->)|[(_ & _ & ->)|[(_ & ->)|(_ & ->)]]]]];
      simpl; auto. contradiction.
Qed.

(** Without the token [-p] the display flag stays off. *)
Lemma parse_no_p st :
  ~ In "-p" args ->
  parse_args cnt args = Ok st -> l_display st = false.
Proof.
  intros Hno.
  apply (ParseFacts.parse_invariant cnt args (fun s => l_display s = false)).
  - reflexivity.
  - intros s s' HP Hlt Hb. cbn [l_display set_i].
    pose proof (ParseFacts.arg_at_In args _ Hlt) as Hin.
    destruct (body_inv _ _ _ _ Hb)
      as [(_ & _ & ->)|[(_ & ->)|[(_ & _ & ->)|[(_ & _ & ->)|[(H & ->)|(_ & ->)]]]]];
      simpl; auto. rewrite H in Hin. contradiction.
Qed.

End Invariants.

End PassFacts.

(** ** Every path through [run] *)

Module PathFacts.

(** No arguments and a device: the usage text, the catalog, and a return. *)
Lemma after_discovery E b ids :
  deviceCount E <> 0 ->
  after_grid_init E [] b ids =
  ([EvPioPrint (header E [] true); EvPioPrint (usage E);
    EvPlatform; EvDisplayDevices], Ok tt).
Proof.
  intros Hc. unfold after_grid_init. simpl.
  destruct (Z.eqb_spec (deviceCount E) 0); [contradiction|reflexivity].
Qed.

(** [run] takes one of seven paths. *)
Lemma run_paths E args :
  (exists t m,
      grid_init E (bBoinc_of E args) = (t, Throw m) /\
      run E args = (EvPioSetBoinc (bBoinc_of E args) :: t, Throw m)) \/
  (exists t ids,
      grid_init E (bBoinc_of E args) = (t, Ok ids) /\
      ((banner_requested args = true /\
        run E args =
        (EvPioSetBoinc (bBoinc_of E args) :: t
           ++ EvPioError (header E args false) false
           :: (if bBoinc_of E args then [EvBoincFinish EXIT_SUCCESS] else []),
         Ok tt)) \/
       (banner_requested args = false /\ deviceCount E = 0 /\
        run E args =
        (EvPioSetBoinc (bBoinc_of E args) :: t
           ++ EvPioPrint (header E args true)
           :: (if Nat.eqb (List.length args) 0 then [EvPioPrint (usage E)] else [])
           ++ [EvPlatform; EvDisplayDevices],
         Throw "No OpenCL device")) \/
       (args = [] /\ deviceCount E <> 0 /\
        run E args =
        (EvPioSetBoinc (bBoinc_of E args) :: t
           ++ [EvPioPrint (header E [] true); EvPioPrint (usage E);
               EvPlatform; EvDisplayDevices],
         Ok tt)) \/
       (exists m,
           banner_requested args = false /\ deviceCount E <> 0 /\
           Parse.parse_args (deviceCount E) args = Throw m /\
           run E args =
           (EvPioSetBoinc (bBoinc_of E args) :: t
              ++ [EvPioPrint (header E args true); EvPlatform; EvDisplayDevices],
            Throw m)) \/
       (exists st,
           banner_requested args = false /\ deviceCount E <> 0 /\ args <> [] /\
           Parse.parse_args (deviceCount E) args = Ok st /\ Parse.l_n st = 0 /\
           run E args =
           (EvPioSetBoinc (bBoinc_of E args) :: t
              ++ [EvPioPrint (header E args true); EvPlatform; EvDisplayDevices],
            Ok tt)) \/
       (exists st,
           banner_requested args = false /\ deviceCount E <> 0 /\
           Parse.parse_args (deviceCount E) args = Ok st /\ Parse.l_n st <> 0 /\
           run E args =
           (EvPioSetBoinc (bBoinc_of E args) :: t
              ++ EvPioPrint (header E args true) :: EvPlatform :: EvDisplayDevices
              :: fst (compute E (bBoinc_of E args) ids st),
            snd (compute E (bBoinc_of E args) ids st))))).
Proof.
  rewrite RunFacts.run_unfold.
  destruct (grid_init E (bBoinc_of E args)) as [t [ids|m]] eqn:Hgrid.
  2:{ left. exists t, m. auto. }
  right. exists t, ids. split; [reflexivity|].
  destruct (banner_requested args) eqn:Hb.
  { left. split; [reflexivity|].
    rewrite RunFacts.after_banner by exact Hb. reflexivity. }
  right.
  destruct (Z.eq_dec (deviceCount E) 0) as [Hc|Hc].
  { left. split; [reflexivity|]. split; [exact Hc|].
    rewrite RunFacts.after_no_device by assumption. reflexivity. }
  right.
  destruct args as [|a args'].
  { left. split; [reflexivity|]. split; [exact Hc|].
    rewrite after_discovery by exact Hc. reflexivity. }
  right.
  destruct (Parse.parse_args (deviceCount E) (a :: args')) as [st|m] eqn:Hp.
  2:{ left. exists m. repeat split; auto.
      rewrite (RunFacts.after_parse_throw E _ _ _ m Hb Hc Hp). reflexivity. }
  right.
  destruct (Z.eq_dec (Parse.l_n st) 0) as [Hn|Hn].
  - left. exists st. repeat split; auto; try discriminate.
    rewrite (RunFacts.after_noop E _ _ _ st Hb Hc) by (discriminate || assumption).
    reflexivity.
  - right. exists st. repeat split; auto.
    rewrite (RunFacts.after_compute E _ _ _ st Hb Hc Hp Hn). reflexivity.
Qed.

Lemma filter_none {A} (f : A -> bool) l e :
  filter f l = [] -> In e l -> f e = false.
Proof.
  intros Hf Hin. destruct (f e) eqn:He; [|reflexivity].
  assert (H : In e (filter f l)) by (apply filter_In; auto).
  rewrite Hf in H. destruct H.
Qed.

(** The calls to the engine that a run makes are those of its engine
    part, when it comes to it. *)
Lemma engine_events_run E args :
  filter is_engine_event (fst (run E args)) =
  match snd (grid_init E (bBoinc_of E args)) with
  | Throw _ => []
  | Ok ids =>
      if banner_requested args then []
      else if deviceCount E =? 0 then []
      else match Parse.parse_args (deviceCount E) args with
           | Throw _ => []
           | Ok st =>
               if Parse.l_n st =? 0 then []
               else filter is_engine_event
                      (fst (compute E (bBoinc_of E args) ids st))
           end
  end.
Proof.
  destruct (RunFacts.grid_init_quiet E (bBoinc_of E args)) as (_ & _ & He & _).
  destruct (run_paths E args)
    as [(t & m & Hg & ->)
       |(t & ids & Hg &
         [(Hb & ->)
         |[(Hb & Hc & ->)
          |[(-> & Hc & ->)
           |[(m & Hb & Hc & Hp & ->)
            |[(st & Hb & Hc & Hne & Hp & Hn & ->)
             |(st & Hb & Hc & Hp & Hn & ->)]]]]])];
    rewrite Hg in *; cbn [fst snd] in *.
  - simpl. exact He.
  - rewrite Hb. simpl. rewrite filter_app, He.
    destruct (bBoinc_of E args); reflexivity.
  - rewrite Hb, Hc. simpl. rewrite !filter_app, He.
    destruct (Nat.eqb (List.length args) 0); reflexivity.
  - simpl. destruct (deviceCount E =? 0); rewrite filter_app, He; reflexivity.
  - rewrite Hb, Hp. simpl. rewrite filter_app, He.
    destruct (deviceCount E =? 0); reflexivity.
  - rewrite Hb, Hp, Hn. simpl. rewrite filter_app, He.
    destruct (deviceCount E =? 0); reflexivity.
  - rewrite Hb, Hp.
    destruct (Z.eqb_spec (deviceCount E) 0); [contradiction|].
    destruct (Z.eqb_spec (Parse.l_n st) 0); [contradiction|].
    simpl. rewrite filter_app, He. reflexivity.
Qed.

(** The engine part, call by call: the engine, [init], the check of the
    file or the benchmark, [release], each reached when no call before it
    has thrown. *)
Lemma compute_trace E b pid did st :
  compute E b (pid, did) st =
  let p := if b && negb (did =? 0) && negb (pid =? 0)
           then ClientPlatform pid did else LocalPlatform in
  let d := if b && negb (did =? 0) && negb (pid =? 0)
           then 0 else Parse.l_d st in
  let file := negb (is_empty (Parse.l_filename st)) in
  let work := if file
              then EvCheckFile (Parse.l_filename st) (Parse.l_display st)
              else EvBench in
  match fault E SiteEngine with
  | Some m => ([EvGenSetBoinc b; EvEngine p d], Throw m)
  | None =>
      match fault E SiteInit with
      | Some m => ([EvGenSetBoinc b; EvEngine p d; EvGenInit (Parse.l_n st) b], Throw m)
      | None =>
          match fault E (if file then SiteCheckFile else SiteBench) with
          | Some m =>
              ([EvGenSetBoinc b; EvEngine p d; EvGenInit (Parse.l_n st) b; work],
               Throw m)
          | None =>
              ([EvGenSetBoinc b; EvEngine p d; EvGenInit (Parse.l_n st) b; work;
                EvRelease]
                 ++ (if b then [EvBoincFinish EXIT_SUCCESS] else []),
               Ok tt)
          end
      end
  end.
Proof.
  cbv zeta. unfold compute.
  destruct (b && negb (did =? 0) && negb (pid =? 0));
    destruct (negb (is_empty (Parse.l_filename st)));
    unfold call, bind, emit, throw, ret; simpl;
    repeat match goal with
           | |- context [fault E ?s] => destruct (fault E s); simpl
           end;
    destruct b; reflexivity.
Qed.

End PathFacts.

Module MainFacts.

(** The trace of the process is that of [run], with the error line at its
    end when [run] has thrown. *)
Lemma main_unfold E argv :
  main E argv =
  (fst (run E (tl argv))
     ++ match snd (run E (tl argv)) with
        | Throw m => [error_line m]
        | Ok _ => []
        end,
   match snd (run E (tl argv)) with
   | Throw _ => EXIT_FAILURE
   | Ok _ => EXIT_SUCCESS
   end).
Proof.
  unfold main. destruct (run E (tl argv)) as [t [u|m]]; simpl.
  - rewrite app_nil_r. reflexivity.
  - reflexivity.
Qed.

Lemma main_engine_events E argv :
  filter is_engine_event (fst (main E argv))
  = filter is_engine_event (fst (run E (tl argv))).
Proof.
  rewrite main_unfold. cbn [fst]. rewrite filter_app.
  destruct (snd (run E (tl argv))); simpl; apply app_nil_r.
Qed.

(** A call to the engine is one of the engine part, made after the grid
    client has started, no banner flag was found, a device exists and the
    arguments were accepted with an exponent. *)
Lemma in_engine_events E argv e :
  is_engine_event e = true ->
  In e (fst (main E argv)) ->
  exists ids st,
    snd (grid_init E (bBoinc_of E (tl argv))) = Ok ids /\
    banner_requested (tl argv) = false /\
    deviceCount E <> 0 /\
    Parse.parse_args (deviceCount E) (tl argv) = Ok st /\
    Parse.l_n st <> 0 /\
    In e (fst (compute E (bBoinc_of E (tl argv)) ids st)).
Proof.
  intros He Hin.
  assert (H : In e (filter is_engine_event (fst (main E argv))))
    by (apply filter_In; auto).
  rewrite main_engine_events, PathFacts.engine_events_run in H.
  destruct (snd (grid_init E (bBoinc_of E (tl argv)))) as [ids|m]; [|destruct H].
  destruct (banner_requested (tl argv)); [destruct H|].
  destruct (Z.eqb_spec (deviceCount E) 0); [destruct H|].
  destruct (Parse.parse_args (deviceCount E) (tl argv)) as [st|m]; [|destruct H].
  destruct (Z.eqb_spec (Parse.l_n st) 0); [destruct H|].
  apply filter_In in H as [H _].
  exists ids, st. repeat split; auto.
Qed.

(** The engine part reads the state of the loop through its values. *)
Lemma compute_values E b ids st st' :
  values st = values st' -> compute E b ids st = compute E b ids st'.
Proof.
  destruct st, st'. unfold values. simpl. intros H.
  injection H as <- <- <- <-. reflexivity.
Qed.

Lemma fatal_is_output e : is_fatal e = true -> is_output e = true.
Proof. destruct e; try discriminate. reflexivity. Qed.

Lemma no_output_no_fatal t : filter is_output t = [] -> filter is_fatal t = [].
Proof.
  induction t as [|e t IH]; [reflexivity|]. simpl.
  destruct (is_output e) eqn:Ho; [discriminate|].
  intros H. destruct (is_fatal e) eqn:Hf.
  - apply fatal_is_output in Hf. congruence.
  - auto.
Qed.

(** Every call of the engine part is one of these six. *)
Lemma compute_events E b pid did st e :
  In e (fst (compute E b (pid, did) st)) ->
  e = EvGenSetBoinc b \/
  e = EvEngine (if b && negb (did =? 0) && negb (pid =? 0)
                then ClientPlatform pid did else LocalPlatform)
               (if b && negb (did =? 0) && negb (pid =? 0)
                then 0 else Parse.l_d st) \/
  e = EvGenInit (Parse.l_n st) b \/
  e = (if negb (is_empty (Parse.l_filename st))
       then EvCheckFile (Parse.l_filename st) (Parse.l_display st)
       else EvBench) \/
  e = EvRelease \/
  e = EvBoincFinish EXIT_SUCCESS.
Proof.
  rewrite PathFacts.compute_trace. cbv zeta.
  destruct (fault E SiteEngine); [|destruct (fault E SiteInit);
    [|destruct (fault E _)]]; cbn [fst]; intros Hin;
    try apply in_app_or in Hin; simpl in Hin.
  4:{ destruct Hin as [Hin|Hin]; [|destruct b; simpl in Hin].
      all: intuition (subst; auto 10). }
  all: intuition (subst; auto 10).
Qed.

End MainFacts.

(** ** What the engine is asked to do *)

(** X4. Whatever the arguments and the surroundings, the engine is only
    ever initialised with an exponent from 8 to 16, and with the grid flag
    of the run. *)
Theorem engine_exponent_in_range (E : env) (argv : list string) (n : Z) (b : bool) :
  In (EvGenInit n b) (fst (main E argv)) ->
  8 <= n <= 16 /\ b = bBoinc_of E (tl argv).
Proof.
  intros Hin.
  destruct (MainFacts.in_engine_events E argv (EvGenInit n b) eq_refl Hin)
    as ([pid did] & st & _ & _ & _ & Hp & Hn & Hc).
  apply MainFacts.compute_events in Hc.
  assert (Heq : n = Parse.l_n st /\ b = bBoinc_of E (tl argv)).
  { destruct Hc as [H|[H|[H|[H|[H|H]]]]]; try discriminate H.
    - injection H as -> ->. auto.
    - destruct (negb (is_empty (Parse.l_filename st))); discriminate H. }
  destruct Heq as [-> ->]. split; [|reflexivity].
  destruct (PassFacts.parse_n_range _ _ _ Hp); [contradiction|assumption].
Qed.

Lemma engine_exponent_in_range_witness :
  8 <= 12 <= 16 /\ false = bBoinc_of (plain_env false 1) ["-n12"; "-boinc"].
Proof.
  apply (engine_exponent_in_range (plain_env false 1)
           ["genefer20"; "-n12"; "-boinc"] 12 false).
  vm_compute. auto 8.
Defined.

(** X5. An engine built on the local platform is built on a device the
    catalog holds: its index is below the device count. *)
Theorem engine_device_in_range (E : env) (argv : list string) (d : Z) :
  0 <= deviceCount E ->
  In (EvEngine LocalPlatform d) (fst (main E argv)) ->
  0 <= d < deviceCount E.
Proof.
  intros Hcnt Hin.
  destruct (MainFacts.in_engine_events E argv (EvEngine LocalPlatform d) eq_refl Hin)
    as ([pid did] & st & _ & _ & Hc0 & Hp & _ & Hc).
  apply MainFacts.compute_events in Hc.
  assert (Heq : d = Parse.l_d st).
  { destruct Hc as [H|[H|[H|[H|[H|H]]]]]; try discriminate H.
    - destruct (bBoinc_of E (tl argv) && negb (did =? 0) && negb (pid =? 0));
        [discriminate H|]. injection H as ->. reflexivity.
    - destruct (negb (is_empty (Parse.l_filename st))); discriminate H. }
  subst d.
  destruct (PassFacts.parse_d_range _ _ _ Hp) as [H0 [H1|H1]]; lia.
Qed.

Lemma engine_device_in_range_witness :
  0 <= 1 < deviceCount (plain_env false 2).
Proof.
  apply (engine_device_in_range (plain_env false 2)
           ["genefer20"; "-d"; "1"; "-n"; "9"] 1).
  - discriminate.
  - vm_compute. auto 8.
Defined.

Module ModeFacts.

(** A check of a file is made with the name and the display flag the
    arguments gave, and the name is not empty. *)
Lemma check_file_state E argv f disp :
  In (EvCheckFile f disp) (fst (main E argv)) ->
  exists st, Parse.parse_args (deviceCount E) (tl argv) = Ok st /\
             Parse.l_filename st = f /\ Parse.l_display st = disp /\
             is_empty f = false.
Proof.
  intros Hin.
  destruct (MainFacts.in_engine_events E argv (EvCheckFile f disp) eq_refl Hin)
    as ([pid did] & st & _ & _ & _ & Hp & _ & Hc).
  apply MainFacts.compute_events in Hc.
  exists st. split; [exact Hp|].
  destruct Hc as [H|[H|[H|[H|[H|H]]]]]; try discriminate H.
  destruct (is_empty (Parse.l_filename st)) eqn:He; simpl in H; [discriminate H|].
  injection H as -> ->. repeat split. exact He.
Qed.

(** The benchmark is run when the arguments gave no file name. *)
Lemma bench_state E argv :
  In EvBench (fst (main E argv)) ->
  exists st, Parse.parse_args (deviceCount E) (tl argv) = Ok st /\
             is_empty (Parse.l_filename st) = true.
Proof.
  intros Hin.
  destruct (MainFacts.in_engine_events E argv EvBench eq_refl Hin)
    as ([pid did] & st & _ & _ & _ & Hp & _ & Hc).
  apply MainFacts.compute_events in Hc.
  exists st. split; [exact Hp|].
  destruct Hc as [H|[H|[H|[H|[H|H]]]]]; try discriminate H.
  destruct (is_empty (Parse.l_filename st)); [reflexivity|discriminate H].
Qed.

End ModeFacts.

(** X6. A run checks a file or runs the benchmark, never both: the file
    is checked when the arguments gave a non-empty file name, with that
    name and the display flag they gave; the benchmark is run when they
    gave none. *)
Theorem check_file_or_bench (E : env) (argv : list string) :
  (forall f disp,
      In (EvCheckFile f disp) (fst (main E argv)) ->
      f <> "" /\
      ~ In EvBench (fst (main E argv)) /\
      exists st, Parse.parse_args (deviceCount E) (tl argv) = Ok st /\
                 Parse.l_filename st = f /\ Parse.l_display st = disp) /\
  (In EvBench (fst (main E argv)) ->
   (forall f disp, ~ In (EvCheckFile f disp) (fst (main E argv))) /\
   exists st, Parse.parse_args (deviceCount E) (tl argv) = Ok st /\
              Parse.l_filename st = "").
Proof.
  split.
  - intros f disp Hin.
    destruct (ModeFacts.check_file_state E argv f disp Hin) as (st & Hp & Hf & Hd & He).
    split; [intros ->; discriminate He|]. split.
    + intros Hb. destruct (ModeFacts.bench_state E argv Hb) as (st' & Hp' & He').
      rewrite Hp in Hp'. injection Hp' as <-. rewrite Hf in He'. congruence.
    + exists st. auto.
  - intros Hb. destruct (ModeFacts.bench_state E argv Hb) as (st & Hp & He). split.
    + intros f disp Hin.
      destruct (ModeFacts.check_file_state E argv f disp Hin)
        as (st' & Hp' & Hf & _ & He').
      rewrite Hp in Hp'. injection Hp' as <-. rewrite Hf in He. congruence.
    + exists st. split; [exact Hp|].
      destruct (Parse.l_filename st); [reflexivity|discriminate He].
Qed.

Lemma check_file_or_bench_witness :
  ~ In EvBench
      (fst (main (plain_env false 1) ["genefer20"; "-n"; "9"; "-flist.txt"; "-p"])).
Proof.
  apply (proj1 (check_file_or_bench (plain_env false 1)
                  ["genefer20"; "-n"; "9"; "-flist.txt"; "-p"]) "list.txt" true).
  vm_compute. auto 10.
Defined.

(** X7. A file is only ever checked when some token starts with [-f],
    and only ever with the display on when the token [-p] is present. *)
Theorem file_and_display_need_their_flags (E : env) (argv : list string)
  (f : string) (disp : bool) :
  In (EvCheckFile f disp) (fst (main E argv)) ->
  (exists a, In a (tl argv) /\ Str.substr a 0 2 = "-f") /\
  (disp = true -> In "-p" (tl argv)).
Proof.
  intros Hin.
  destruct (ModeFacts.check_file_state E argv f disp Hin) as (st & Hp & Hf & Hd & He).
  split.
  - destruct (existsb (fun a => (Str.substr a 0 2 =? "-f")%string) (tl argv)) eqn:Hex.
    + apply existsb_exists in Hex as (a & Ha & Heq).
      exists a. split; [exact Ha|]. apply String.eqb_eq. exact Heq.
    + exfalso.
      assert (Hno : forall a, In a (tl argv) -> Str.substr a 0 2 <> "-f").
      { intros a Ha Heq.
        assert (Ht : existsb (fun a => (Str.substr a 0 2 =? "-f")%string) (tl argv)
                     = true).
        { apply existsb_exists. exists a. split; [exact Ha|].
          apply String.eqb_eq. exact Heq. }
        congruence. }
      pose proof (PassFacts.parse_no_f (deviceCount E) (tl argv) st Hno Hp) as H.
      rewrite Hf in H. rewrite H in He. discriminate He.
  - intros ->. destruct (in_dec string_dec "-p" (tl argv)) as [Hi|Hni]; [exact Hi|].
    pose proof (PassFacts.parse_no_p (deviceCount E) (tl argv) st Hni Hp) as H.
    congruence.
Qed.

Lemma file_and_display_need_their_flags_witness :
  (exists a, In a ["-n"; "9"; "-flist.txt"; "-p"] /\ Str.substr a 0 2 = "-f") /\
  (true = true -> In "-p" ["-n"; "9"; "-flist.txt"; "-p"]).
Proof.
  apply (file_and_display_need_their_flags (plain_env false 1)
           ["genefer20"; "-n"; "9"; "-flist.txt"; "-p"] "list.txt" true).
  vm_compute. auto 10.
Defined.

(** ** The shape of a trace *)

Module ShapeFacts.

Ltac in_cases H :=
  repeat match type of H with
         | In _ (_ ++ _) => apply in_app_or in H; destruct H as [H|H]
         | In _ (_ :: _) => destruct H as [H|H]
         | _ \/ _ => destruct H as [H|H]
         | In _ [] => destruct H
         | False => destruct H
         | In _ (if ?c then _ else _) => destruct c
         | _ = _ => discriminate H
         end.

Lemma snoc_last {A} (x : A) l a f :
  x :: l ++ [a; f] = (x :: l ++ [a]) ++ [f].
Proof. simpl. rewrite <- app_assoc. reflexivity. Qed.

(** What every trace of [run] looks like: no fatal error line in it; when
    [run] throws, no [release] and no completion call; when it returns,
    either no completion call, or a grid run whose last call is the
    completion call, with success, and the only one. *)
Lemma run_shape E args :
  filter is_fatal (fst (run E args)) = [] /\
  match snd (run E args) with
  | Throw _ =>
      filter is_finish (fst (run E args)) = [] /\
      ~ In EvRelease (fst (run E args))
  | Ok _ =>
      filter is_finish (fst (run E args)) = [] \/
      (bBoinc_of E args = true /\
       exists t, fst (run E args) = t ++ [EvBoincFinish EXIT_SUCCESS] /\
                 filter is_finish t = [])
  end.
Proof.
  destruct (RunFacts.grid_init_quiet E (bBoinc_of E args)) as (Ho & _ & He & Hf & _).
  pose proof (MainFacts.no_output_no_fatal _ Ho) as Hfat.
  destruct (PathFacts.run_paths E args)
    as [(t & m & Hg & ->)
       |(t & ids & Hg &
         [(Hb & ->)
         |[(Hb & Hc & ->)
          |[(-> & Hc & ->)
           |[(m & Hb & Hc & Hp & ->)
            |[(st & Hb & Hc & Hne & Hp & Hn & ->)
             |(st & Hb & Hc & Hp & Hn & ->)]]]]])];
    rewrite Hg in *; cbn [fst snd] in *.
  - simpl. split; [exact Hfat|]. split; [exact Hf|].
    intros H. in_cases H.
    pose proof (PathFacts.filter_none _ _ _ He H). discriminate.
  - destruct (bBoinc_of E args) eqn:HB.
    + split; [simpl; rewrite filter_app, Hfat; reflexivity|].
      right. split; [reflexivity|].
      exists (EvPioSetBoinc true :: t ++ [EvPioError (header E args false) false]).
      split; [apply snoc_last|].
      simpl. rewrite filter_app, Hf. reflexivity.
    + split; [simpl; rewrite filter_app, Hfat; reflexivity|].
      left. simpl. rewrite filter_app, Hf. reflexivity.
  - split; [|split].
    + simpl. rewrite !filter_app, Hfat.
      destruct (Nat.eqb (List.length args) 0); reflexivity.
    + simpl. rewrite !filter_app, Hf.
      destruct (Nat.eqb (List.length args) 0); reflexivity.
    + intros H. in_cases H.
      all: pose proof (PathFacts.filter_none _ _ _ He H); discriminate.
  - split; [simpl; rewrite filter_app, Hfat; reflexivity|].
    left. simpl. rewrite filter_app, Hf. reflexivity.
  - split; [simpl; rewrite filter_app, Hfat; reflexivity|]. split.
    + simpl. rewrite filter_app, Hf. reflexivity.
    + intros H. in_cases H.
      pose proof (PathFacts.filter_none _ _ _ He H). discriminate.
  - split; [simpl; rewrite filter_app, Hfat; reflexivity|].
    left. simpl. rewrite filter_app, Hf. reflexivity.
  - destruct ids as [pid did]. rewrite PathFacts.compute_trace. cbv zeta.
    set (p := if bBoinc_of E args && negb (did =? 0) && negb (pid =? 0)
              then ClientPlatform pid did else LocalPlatform).
    set (d := if bBoinc_of E args && negb (did =? 0) && negb (pid =? 0)
              then 0 else Parse.l_d st).
    destruct (negb (is_empty (Parse.l_filename st)));
      (destruct (fault E SiteEngine); [|destruct (fault E SiteInit);
         [|destruct (fault E _)]]); cbn [fst snd].
    all: split; [simpl; rewrite filter_app, Hfat;
                 try (destruct (bBoinc_of E args)); reflexivity|].
    all: try (split; [simpl; rewrite filter_app, Hf; reflexivity|];
              intros H; in_cases H;
              pose proof (PathFacts.filter_none _ _ _ He H); discriminate).
    all: destruct (bBoinc_of E args) eqn:HB;
      [right; split; [reflexivity|]
      |left; simpl; rewrite filter_app, Hf; reflexivity].
    + eexists (EvPioSetBoinc true :: t ++ [_; _; _; _; _; _; _; _]).
      split; [simpl; rewrite <- app_assoc; reflexivity|].
      simpl. rewrite filter_app, Hf. reflexivity.
    + eexists (EvPioSetBoinc true :: t ++ [_; _; _; _; _; _; _; _]).
      split; [simpl; rewrite <- app_assoc; reflexivity|].
      simpl. rewrite filter_app, Hf. reflexivity.
Qed.

End ShapeFacts.

Module FlagFacts.

Lemma banner_requested_app l1 l2 :
  banner_requested (l1 ++ l2) = banner_requested l1 || banner_requested l2.
Proof.
  induction l1 as [|a l1 IH]; simpl; [reflexivity|].
  destruct (is_banner_flag a); [reflexivity|exact IH].
Qed.

Lemma bBoinc_of_without E pre u post :
  u <> "-boinc" -> bBoinc_of E (pre ++ u :: post) = bBoinc_of E (pre ++ post).
Proof.
  intros Hu. unfold bBoinc_of. destruct (BOINC E); [|reflexivity].
  rewrite !existsb_app. simpl.
  destruct (String.eqb_spec u "-boinc"); [contradiction|reflexivity].
Qed.

End FlagFacts.

(** X8. An unknown token changes nothing of what the engine is asked to
    do: where the loop reads as a flag a token that no branch knows, that
    is no banner flag and is not [-boinc], the run makes the same calls to
    the engine as the run on the list without the token. *)
Theorem unknown_token_same_engine_calls (E : env) (pre post : list string)
  (u : string) (st : Parse.locals) :
  Parse.visits (deviceCount E) (pre ++ u :: post) st ->
  Parse.l_i st = List.length pre ->
  is_unknown u = true ->
  is_banner_flag u = false ->
  u <> "-boinc" ->
  filter is_engine_event (fst (run E (pre ++ u :: post)))
  = filter is_engine_event (fst (run E (pre ++ post))).
Proof.
  intros Hv Hi Hu Hban Hboinc.
  rewrite !PathFacts.engine_events_run.
  rewrite (FlagFacts.bBoinc_of_without E pre u post Hboinc).
  destruct (snd (grid_init E (bBoinc_of E (pre ++ post)))) as [ids|m]; [|reflexivity].
  assert (Hb : banner_requested (pre ++ u :: post) = banner_requested (pre ++ post)).
  { rewrite !FlagFacts.banner_requested_app. simpl. rewrite Hban. reflexivity. }
  rewrite Hb. destruct (banner_requested (pre ++ post)); [reflexivity|].
  destruct (deviceCount E =? 0); [reflexivity|].
  assert (Hagree : agree (Parse.parse_args (deviceCount E) (pre ++ u :: post))
                         (Parse.parse_args (deviceCount E) (pre ++ post))).
  { assert (Hv' : Parse.visits (deviceCount E) (pre ++ post) st).
    { apply (PrefixFacts.visits_prefix (deviceCount E) pre (u :: post) post st);
        [discriminate|exact Hv|lia]. }
    assert (Hlt : (Parse.l_i st < Parse.size (pre ++ u :: post))%nat).
    { unfold Parse.size. rewrite length_app. simpl. lia. }
    assert (Hbody : Parse.body (deviceCount E) (pre ++ u :: post) st = Ok st).
    { apply PrefixFacts.body_unknown. rewrite Hi, TokenFacts.arg_at_middle. exact Hu. }
    apply (ScanFacts.parse_suffix (deviceCount E) (pre ++ u :: post) (pre ++ post)
             (Parse.set_i st (S (Parse.l_i st))) st).
    - exact (Parse.visits_next _ _ st st Hv Hlt Hbody).
    - exact Hv'.
    - cbn [Parse.l_i Parse.set_i]. rewrite Hi.
      rewrite TokenFacts.skipn_after_token, TokenFacts.skipn_after_prefix. reflexivity.
    - destruct st; reflexivity. }
  unfold agree in Hagree.
  destruct (Parse.parse_args (deviceCount E) (pre ++ u :: post)) as [r1|m1];
    destruct (Parse.parse_args (deviceCount E) (pre ++ post)) as [r2|m2];
    try contradiction; [|reflexivity].
  assert (Hn : Parse.l_n r1 = Parse.l_n r2).
  { unfold values in Hagree. injection Hagree as _ Hn _ _. exact Hn. }
  rewrite Hn. destruct (Parse.l_n r2 =? 0); [reflexivity|].
  rewrite (MainFacts.compute_values E _ ids r1 r2 Hagree). reflexivity.
Qed.

(** [-n 10 --fast -p] on one device asks of the engine what [-n 10 -p]
    asks. *)
Lemma unknown_token_same_engine_calls_witness :
  filter is_engine_event (fst (run (plain_env false 1) ["-n"; "10"; "--fast"; "-p"]))
  = filter is_engine_event (fst (run (plain_env false 1) ["-n"; "10"; "-p"])).
Proof.
  apply (unknown_token_same_engine_calls (plain_env false 1)
           ["-n"; "10"] ["-p"] "--fast"
           (Parse.set_i (Parse.set_n (Parse.set_i Parse.init 1) 10) 2)).
  - exact (Parse.visits_next 1 ["-n"; "10"; "--fast"; "-p"] Parse.init
             (Parse.set_n (Parse.set_i Parse.init 1) 10)
             (Parse.visits_init _ _) (le_n_S _ _ (Nat.le_0_l 3)) eq_refl).
  - reflexivity.
  - reflexivity.
  - reflexivity.
  - discriminate.
Defined.

(** ** How a run ends *)

(** X9. When the process ends in failure, whatever the cause, the engine
    has not been released and the completion call of the grid client has
    not been made by [run]. *)
Theorem failure_skips_release (E : env) (argv : list string) :
  snd (main E argv) = EXIT_FAILURE ->
  ~ In EvRelease (fst (main E argv)) /\
  finish_count (fst (main E argv)) = 0%nat.
Proof.
  rewrite MainFacts.main_unfold. cbn [fst snd].
  destruct (ShapeFacts.run_shape E (tl argv)) as [_ Hshape].
  destruct (snd (run E (tl argv))) as [u|m]; [discriminate|].
  destruct Hshape as [Hf Hr]. intros _. split.
  - intros H. apply in_app_or in H as [H|[H|[]]]; [auto|discriminate H].
  - unfold finish_count. rewrite filter_app, Hf. reflexivity.
Qed.

(** The benchmark fails in the engine: no release. *)
Lemma failure_skips_release_witness :
  ~ In EvRelease
      (fst (main {| BOINC := false; sysver := "linux64"; compiler := "";
                    boinc_init_ret := 0; boinc_is_standalone := true;
                    boinc_ids_err := 0; boinc_ids_device := 0;
                    boinc_ids_platform := 0; deviceCount := 1;
                    fault := fun s => match s with
                                      | SiteBench => Some "bench failed"
                                      | _ => None
                                      end |}
                 ["genefer20"; "-n"; "10"])).
Proof.
  apply failure_skips_release. reflexivity.
Defined.

(** X10. The completion call of the grid client is made at most once in a
    process; when it is made, it is the last call of the process, its
    status is success, the process exits with success, and the run is a
    grid run. *)
Theorem finish_once_and_last (E : env) (argv : list string) :
  finish_count (fst (main E argv)) = 0%nat \/
  (finish_count (fst (main E argv)) = 1%nat /\
   snd (main E argv) = EXIT_SUCCESS /\
   bBoinc_of E (tl argv) = true /\
   exists t, fst (main E argv) = t ++ [EvBoincFinish EXIT_SUCCESS] /\
             finish_count t = 0%nat).
Proof.
  rewrite MainFacts.main_unfold. cbn [fst snd].
  destruct (ShapeFacts.run_shape E (tl argv)) as [_ Hshape].
  destruct (snd (run E (tl argv))) as [u|m].
  - rewrite app_nil_r.
    destruct Hshape as [Hf|(HB & t & Ht & Hf)].
    + left. unfold finish_count. rewrite Hf. reflexivity.
    + right. unfold finish_count. rewrite Ht, filter_app, Hf.
      repeat split; auto. exists t. rewrite Hf. auto.
  - left. destruct Hshape as [Hf _].
    unfold finish_count. rewrite filter_app, Hf. reflexivity.
Qed.

(** X11. The process exits with failure exactly when it writes a fatal
    error line; it writes at most one, as its last call, and the line
    carries the message of the error that [run] threw. *)
Theorem failure_iff_error_line (E : env) (argv : list string) :
  (snd (main E argv) = EXIT_SUCCESS /\
   filter is_fatal (fst (main E argv)) = []) \/
  (snd (main E argv) = EXIT_FAILURE /\
   exists t m, fst (main E argv) = t ++ [error_line m] /\
               filter is_fatal t = [] /\
               run E (tl argv) = (t, Throw m)).
Proof.
  rewrite MainFacts.main_unfold. cbn [fst snd].
  destruct (ShapeFacts.run_shape E (tl argv)) as [Hfat _].
  destruct (run E (tl argv)) as [t [u|m]]; cbn [fst snd] in *.
  - left. rewrite app_nil_r. auto.
  - right. split; [reflexivity|]. exists t, m. auto.
Qed.

(** ** The grid client *)

(** X12. In a build without BOINC the grid client is never called,
    whatever the arguments, [-boinc] included: grid mode stays off. *)
Theorem no_client_without_BOINC (E : env) (argv : list string) :
  BOINC E = false ->
  bBoinc_of E (tl argv) = false /\
  filter is_client_event (fst (main E argv)) = [].
Proof.
  intros HB.
  assert (Hb : bBoinc_of E (tl argv) = false) by (unfold bBoinc_of; rewrite HB; reflexivity).
  split; [exact Hb|].
  rewrite MainFacts.main_unfold. cbn [fst]. rewrite filter_app.
  assert (Herr : filter is_client_event
                   match snd (run E (tl argv)) with
                   | Ok _ => []
                   | Throw m => [error_line m]
                   end = []) by (destruct (snd (run E (tl argv))); reflexivity).
  rewrite Herr, app_nil_r.
  destruct (PathFacts.run_paths E (tl argv))
    as [(t & m & Hg & ->)
       |(t & ids & Hg &
         [(_ & ->)
         |[(_ & _ & ->)
          |[(_ & _ & ->)
           |[(m & _ & _ & _ & ->)
            |[(st & _ & _ & _ & _ & _ & ->)
             |(st & _ & _ & _ & _ & ->)]]]]])];
    rewrite Hb in *; cbn [grid_init ret] in Hg; try discriminate Hg;
    injection Hg as <- <-; cbn [fst app].
  - reflexivity.
  - destruct (Nat.eqb (List.length (tl argv)) 0); reflexivity.
  - reflexivity.
  - reflexivity.
  - reflexivity.
  - rewrite PathFacts.compute_trace. cbv zeta. cbn [andb].
    destruct (negb (is_empty (Parse.l_filename st)));
      (destruct (fault E SiteEngine); [|destruct (fault E SiteInit);
         [|destruct (fault E _)]]); reflexivity.
Qed.

Lemma no_client_without_BOINC_witness :
  filter is_client_event
    (fst (main (plain_env false 1) ["genefer20"; "-boinc"; "-n"; "10"])) = [].
Proof.
  exact (proj2 (no_client_without_BOINC (plain_env false 1)
                  ["genefer20"; "-boinc"; "-n"; "10"] eq_refl)).
Defined.

(** X13. When grid mode is asked for and [boinc_init] returns a status
    other than 0, the process does nothing more than report it: the client
    is not asked whether it stands alone, nothing is printed but the error
    line "boinc_init returned <status>", no banner even with [-v], no
    device is enumerated, and the exit status is failure. *)
Theorem boinc_init_failure (E : env) (argv0 : string) (args : list string) :
  bBoinc_of E args = true ->
  boinc_init_ret E <> 0 ->
  main E (argv0 :: args) =
  ([EvPioSetBoinc true; EvBoincInit;
    error_line ("boinc_init returned " ++ Str.of_int (boinc_init_ret E))],
   EXIT_FAILURE).
Proof.
  intros HB Hret. unfold main. cbn [tl].
  rewrite RunFacts.run_unfold, HB. unfold grid_init.
  destruct (Z.eqb_spec (boinc_init_ret E) 0); [contradiction|]. reflexivity.
Qed.

Lemma boinc_init_failure_witness :
  snd (main (client_env 3 7 9 1) ["genefer20"; "-boinc"; "-n"; "10"]) = EXIT_FAILURE.
Proof.
  exact (f_equal snd (boinc_init_failure (client_env 3 7 9 1) "genefer20"
                        ["-boinc"; "-n"; "10"] eq_refl
                        (fun H : 3 = 0 => Z.neq_sym _ _ (Z.lt_neq 0 3 eq_refl) H))).
Defined.

(** X14. Under a managing client, when the query for the identities fails
    (a status other than 0) or gives a null device or platform, the
    process stops there: nothing is printed but the error line, which
    carries the status (0 when only an identity is null), no device is
    enumerated, and the exit status is failure. *)
Theorem boinc_ids_failure (E : env) (argv0 : string) (args : list string) :
  bBoinc_of E args = true ->
  boinc_init_ret E = 0 ->
  boinc_is_standalone E = false ->
  boinc_ids_err E <> 0 \/ boinc_ids_device E = 0 \/ boinc_ids_platform E = 0 ->
  main E (argv0 :: args) =
  ([EvPioSetBoinc true; EvBoincInit; EvBoincIsStandalone; EvBoincGetOpenclIds;
    error_line (Str.endl ++ "error: boinc_get_opencl_ids() failed err = "
                ++ Str.of_int (boinc_ids_err E))],
   EXIT_FAILURE).
Proof.
  intros HB Hret Hs Hids. unfold main. cbn [tl].
  assert (HBOINC : BOINC E = true).
  { unfold bBoinc_of in HB. destruct (BOINC E); [reflexivity|discriminate]. }
  rewrite RunFacts.run_unfold, HB. unfold grid_init.
  rewrite Hret, HBOINC, Hs. simpl.
  assert (Hc : negb (boinc_ids_err E =? 0) || (boinc_ids_device E =? 0)
               || (boinc_ids_platform E =? 0) = true).
  { destruct (Z.eqb_spec (boinc_ids_err E) 0); [|reflexivity].
    destruct (Z.eqb_spec (boinc_ids_device E) 0); [reflexivity|].
    destruct (Z.eqb_spec (boinc_ids_platform E) 0); [reflexivity|].
    destruct Hids as [H|[H|H]]; contradiction. }
  rewrite Hc. reflexivity.
Qed.

(** The client answers with status 0 and a null device. *)
Lemma boinc_ids_failure_witness :
  snd (main (client_env 0 7 0 1) ["genefer20"; "-boinc"; "-n"; "10"]) = EXIT_FAILURE.
Proof.
  exact (f_equal snd (boinc_ids_failure (client_env 0 7 0 1) "genefer20"
                        ["-boinc"; "-n"; "10"] eq_refl eq_refl eq_refl
                        (or_intror (or_introl eq_refl)))).
Defined.

(** ** Devices *)

(** X15. The device count is tested before any argument is looked at:
    with no device, and no banner flag, a run whose grid client started
    fails with "No OpenCL device" whatever the other arguments are, valid
    or not. *)
Theorem no_device_before_arguments (E : env) (argv0 : string) (args : list string)
  t ids :
  deviceCount E = 0 ->
  banner_requested args = false ->
  grid_init E (bBoinc_of E args) = (t, Ok ids) ->
  snd (run E args) = Throw "No OpenCL device" /\
  snd (main E (argv0 :: args)) = EXIT_FAILURE /\
  filter is_engine_event (fst (main E (argv0 :: args))) = [].
Proof.
  intros Hc Hb Hg.
  assert (Hrun : snd (run E args) = Throw "No OpenCL device").
  { rewrite RunFacts.run_unfold, Hg.
    rewrite RunFacts.after_no_device by assumption. reflexivity. }
  split; [exact Hrun|]. split.
  - rewrite MainFacts.main_unfold. cbn [snd tl]. rewrite Hrun. reflexivity.
  - rewrite MainFacts.main_engine_events, PathFacts.engine_events_run. cbn [tl].
    rewrite Hg, Hb, Hc. reflexivity.
Qed.

Lemma no_device_before_arguments_witness :
  snd (run (plain_env false 0) ["-n"; "99"; "-d"; "7"]) = Throw "No OpenCL device".
Proof.
  exact (proj1 (no_device_before_arguments (plain_env false 0) "genefer20"
                  ["-n"; "99"; "-d"; "7"] [] (0, 0) eq_refl eq_refl eq_refl)).
Defined.

(** ** The banner and the usage text *)

Module TextFacts.

Lemma append_nil_r s : (s ++ "")%string = s.
Proof. induction s as [|c s IH]; simpl; [reflexivity|]. rewrite IH. reflexivity. Qed.

Lemma append_assoc a b c : ((a ++ b) ++ c)%string = (a ++ b ++ c)%string.
Proof. induction a as [|x a IH]; simpl; [reflexivity|]. rewrite IH. reflexivity. Qed.

(** The loop of [header] writes the arguments with one space between
    two of them. *)
Lemma command_line_rest l : forall a,
  (a ++ command_line false l)%string = String.concat " " (a :: l).
Proof.
  induction l as [|b l IH]; intros a.
  - simpl. apply append_nil_r.
  - change (command_line false (b :: l))
      with (" " ++ b ++ command_line false l)%string.
    rewrite IH. reflexivity.
Qed.

Lemma command_line_concat args :
  command_line true args = String.concat " " args.
Proof.
  destruct args as [|a l]; [reflexivity|].
  change (command_line true (a :: l)) with (a ++ command_line false l)%string.
  apply command_line_rest.
Qed.

(** The banner and the usage text start differently. *)
Lemma header_not_usage E args nl : header E args nl <> usage E.
Proof. unfold header, usage. simpl. discriminate. Qed.

End TextFacts.

(** X16. The banner printed with the command line is the plain banner
    followed by an empty line, the arguments between quotes, joined by
    single spaces, and an empty line. *)
Theorem header_command_line (E : env) (args : list string) :
  header E args true =
  (header E args false ++ Str.endl ++ "Command line: '"
     ++ String.concat " " args ++ "'" ++ Str.endl ++ Str.endl)%string.
Proof.
  unfold header.
  rewrite TextFacts.command_line_concat.
  rewrite !TextFacts.append_assoc.
  reflexivity.
Qed.

(** X17. The usage text is printed exactly when the argument list is
    empty; and a run without arguments returns without error exactly when
    a device exists. *)
Theorem usage_iff_no_arguments (E : env) (args : list string) :
  (In (EvPioPrint (usage E)) (fst (run E args)) <-> args = []) /\
  (args = [] -> (snd (run E args) = Ok tt <-> deviceCount E <> 0)).
Proof.
  assert (Hempty : run E [] =
    ([EvPioSetBoinc false; EvPioPrint (header E [] true); EvPioPrint (usage E);
      EvPlatform; EvDisplayDevices],
     if deviceCount E =? 0 then Throw "No OpenCL device" else Ok tt)).
  { rewrite RunFacts.run_unfold.
    assert (Hb : bBoinc_of E [] = false)
      by (unfold bBoinc_of; destruct (BOINC E); reflexivity).
    rewrite Hb. cbn [grid_init ret].
    unfold after_grid_init. simpl.
    destruct (deviceCount E =? 0); reflexivity. }
  split.
  - split.
    + intros Hin. destruct args as [|a args']; [reflexivity|]. exfalso.
      destruct (RunFacts.grid_init_quiet E (bBoinc_of E (a :: args'))) as (Ho & _).
      destruct (PathFacts.run_paths E (a :: args'))
        as [(t & m & Hg & Hr)
           |(t & ids & Hg &
             [(Hb & Hr)
             |[(Hb & Hc & Hr)
              |[(Ha & Hc & Hr)
               |[(m & Hb & Hc & Hp & Hr)
                |[(st & Hb & Hc & Hne & Hp & Hn & Hr)
                 |(st & Hb & Hc & Hp & Hn & Hr)]]]]])];
        try discriminate Ha;
        rewrite Hr in Hin; rewrite Hg in Ho; cbn [fst] in Hin, Ho;
        simpl List.length in Hin; cbn [Nat.eqb] in Hin;
        ShapeFacts.in_cases Hin.
      all: try (pose proof (PathFacts.filter_none _ _ _ Ho Hin); discriminate).
      all: try (injection Hin as Hin; exact (TextFacts.header_not_usage _ _ _ Hin)).
      destruct ids as [pid did].
      apply MainFacts.compute_events in Hin.
      destruct Hin as [H|[H|[H|[H|[H|H]]]]]; try discriminate H.
      destruct (negb (is_empty (Parse.l_filename st))); discriminate H.
    + intros ->. rewrite Hempty. simpl. auto.
  - intros ->. rewrite Hempty. cbn [snd].
    destruct (Z.eqb_spec (deviceCount E) 0) as [Hc|Hc]; split; intros H;
      try discriminate; try contradiction; try exact Hc; reflexivity.
Qed.

Lemma usage_iff_no_arguments_witness :
  snd (run (plain_env true 3) []) = Ok tt.
Proof.
  apply (proj2 (usage_iff_no_arguments (plain_env true 3) []) eq_refl).
  discriminate.
Defined.

(** ** Values at the edges *)

Module EdgeFacts.
Import Parse.

(** The last pass of the loop. *)
Lemma last_pass cnt args st r :
  visits cnt args st -> S (l_i st) = size args ->
  body cnt args st = Ok r -> l_i r = l_i st ->
  parse_args cnt args = Ok (set_i r (S (l_i st))).
Proof.
  intros Hv Hlast Hb Hi.
  rewrite (ParseFacts.visits_parse cnt args st Hv).
  rewrite ParseFacts.loop_step by lia. rewrite Hb.
  rewrite ParseFacts.loop_done by (simpl; lia).
  rewrite Hi. reflexivity.
Qed.

(** A flag that is the last token has the empty text as its value. *)
Lemma value_of_last args flag i :
  arg_at args i = flag -> S i = size args ->
  value_of args flag i = ("", i).
Proof.
  intros Ha Hlast. unfold value_of. rewrite Ha, String.eqb_refl.
  destruct (Nat.ltb_spec (i + 1) (size args)); [lia|]. cbn [andb].
  replace flag with (flag ++ "")%string at 1 by apply TextFacts.append_nil_r.
  rewrite TokenFacts.substr_from_append. reflexivity.
Qed.

Lemma atoi_range s : - 2 ^ 31 <= Libc.atoi s < 2 ^ 31.
Proof.
  unfold Libc.atoi, Libc.to_int.
  pose proof (Z.mod_pos_bound (Libc.strtol s + 2 ^ 31) (2 ^ 32) eq_refl). lia.
Qed.

(** A negative [int] becomes a [size_t] near the top of its range. *)
Lemma to_size_t_negative z :
  - 2 ^ 31 <= z < 0 -> Libc.to_size_t z = z + 2 ^ 64.
Proof.
  intros H. unfold Libc.to_size_t. symmetry.
  apply (Z.mod_unique z (2 ^ 64) (-1) (z + 2 ^ 64)); lia.
Qed.

End EdgeFacts.

(** X18. A value flag that is the last token takes the empty text as its
    value, without error for [-f], [-d] and [--device]: a trailing [-f]
    leaves the file name empty (so the run is a benchmark), and a
    trailing [-d] or [--device] selects device 0 when a device exists. *)
Theorem trailing_flag_takes_empty_value (deviceCount : Z) (args : list string)
  (st : Parse.locals) :
  Parse.visits deviceCount args st ->
  S (Parse.l_i st) = Parse.size args ->
  (Parse.arg_at args (Parse.l_i st) = "-f" ->
   Parse.parse_args deviceCount args
   = Ok (Parse.set_i (Parse.set_filename st "") (Parse.size args))) /\
  (Parse.arg_at args (Parse.l_i st) = "-d" \/
   Parse.arg_at args (Parse.l_i st) = "--device" ->
   0 < deviceCount ->
   Parse.parse_args deviceCount args
   = Ok (Parse.set_i (Parse.set_d st 0) (Parse.size args))).
Proof.
  intros Hv Hlast. split.
  - intros Ha.
    assert (Hb : Parse.body deviceCount args st = Ok (Parse.set_filename st "")).
    { rewrite PrefixFacts.body_f by (rewrite Ha; reflexivity).
      rewrite (EdgeFacts.value_of_last args "-f" _ Ha Hlast). cbn [fst snd].
      rewrite ScanFacts.set_i_same. reflexivity. }
    rewrite <- Hlast.
    exact (EdgeFacts.last_pass deviceCount args st _ Hv Hlast Hb eq_refl).
  - intros Ha Hcnt.
    assert (Hb : Parse.body deviceCount args st = Ok (Parse.set_d st 0)).
    { destruct Ha as [Ha|Ha].
      - rewrite ParseFacts.body_d by (rewrite Ha; reflexivity).
        rewrite (EdgeFacts.value_of_last args "-d" _ Ha Hlast). cbv zeta. cbn [fst snd].
        change (Libc.to_size_t (Libc.atoi "")) with 0.
        destruct (Z.geb_spec 0 deviceCount); [lia|].
        rewrite ScanFacts.set_i_same. reflexivity.
      - rewrite ParseFacts.body_device by (rewrite Ha; reflexivity).
        rewrite (EdgeFacts.value_of_last args "--device" _ Ha Hlast).
        cbv zeta. cbn [fst snd].
        change (Libc.to_size_t (Libc.atoi "")) with 0.
        destruct (Z.geb_spec 0 deviceCount); [lia|].
        rewrite ScanFacts.set_i_same. reflexivity. }
    rewrite <- Hlast.
    exact (EdgeFacts.last_pass deviceCount args st _ Hv Hlast Hb eq_refl).
Qed.

(** [-n 9 -f]: the file name stays empty. *)
Lemma trailing_flag_takes_empty_value_witness :
  Parse.parse_args 1 ["-n"; "9"; "-f"]
  = Ok (Parse.set_i (Parse.set_filename (Parse.set_n Parse.init 9) "") 3).
Proof.
  refine (proj1 (trailing_flag_takes_empty_value 1 ["-n"; "9"; "-f"]
                   (Parse.set_i (Parse.set_n (Parse.set_i Parse.init 1) 9) 2) _ _) _).
  - exact (Parse.visits_next 1 ["-n"; "9"; "-f"] Parse.init
             (Parse.set_n (Parse.set_i Parse.init 1) 9)
             (Parse.visits_init _ _) (le_n_S _ _ (Nat.le_0_l 2)) eq_refl).
  - reflexivity.
  - reflexivity.
Defined.

(** X19. A device value that reads as a negative number is refused: the
    conversion to [size_t] makes it larger than any count of devices (here:
    any count up to 2^63). *)
Theorem negative_device_refused (deviceCount : Z) (args : list string)
  (st : Parse.locals) (flag : string) :
  Parse.visits deviceCount args st ->
  (Parse.l_i st < Parse.size args)%nat ->
  (flag = "-d" /\ Str.substr (Parse.arg_at args (Parse.l_i st)) 0 2 = "-d") \/
  (flag = "--device" /\
   Str.substr (Parse.arg_at args (Parse.l_i st)) 0 8 = "--device") ->
  Libc.atoi (fst (Parse.value_of args flag (Parse.l_i st))) < 0 ->
  deviceCount <= 2 ^ 63 ->
  Parse.parse_args deviceCount args = Throw "invalid device number".
Proof.
  intros Hv Hlt Hflag Hneg Hcnt.
  pose proof (EdgeFacts.atoi_range (fst (Parse.value_of args flag (Parse.l_i st))))
    as Hr.
  pose proof (EdgeFacts.to_size_t_negative
                (Libc.atoi (fst (Parse.value_of args flag (Parse.l_i st))))
                ltac:(lia)) as Hs.
  apply (ParseFacts.visits_throw deviceCount args st); auto.
  destruct Hflag as [[-> H]|[-> H]].
  - rewrite (ParseFacts.body_d deviceCount args st H). cbv zeta. rewrite Hs.
    destruct (Z.geb_spec
                (Libc.atoi (fst (Parse.value_of args "-d" (Parse.l_i st))) + 2 ^ 64)
                deviceCount); [reflexivity|lia].
  - rewrite (ParseFacts.body_device deviceCount args st H). cbv zeta. rewrite Hs.
    destruct (Z.geb_spec
                (Libc.atoi (fst (Parse.value_of args "--device" (Parse.l_i st)))
                 + 2 ^ 64) deviceCount); [reflexivity|lia].
Qed.

Lemma negative_device_refused_witness :
  Parse.parse_args 4 ["-d"; "-1"] = Throw "invalid device number".
Proof.
  refine (negative_device_refused 4 ["-d"; "-1"] Parse.init "-d"
            (Parse.visits_init _ _) _ _ _ _).
  - simpl. lia.
  - left. split; reflexivity.
  - vm_compute. reflexivity.
  - vm_compute. discriminate.
Defined.

(** ** Which requests are intercepted *)

Module InterceptFacts.
Import Cancellation.

Lemma deliver_posix_signal sig p :
  deliver (application Posix) (Signal sig) p =
  if SIGINT =? sig then Some (quit sig p)
  else if SIGTERM =? sig then Some (quit sig p)
  else None.
Proof.
  unfold deliver, application, signal. cbn [on_signal lookup].
  destruct (SIGINT =? sig); [reflexivity|].
  destruct (SIGTERM =? sig); reflexivity.
Qed.

End InterceptFacts.

(** X20. The constructor registers [quit] for SIGINT and SIGTERM and for
    nothing else, or, on Windows, one routine for every console control
    event: on POSIX a signal is intercepted exactly when it is one of the
    two, no signal is intercepted on Windows and no console event on
    POSIX; and what an intercepted request does to the process does not
    depend on which request it is. *)
Theorem only_stop_requests_intercepted :
  (forall sig p,
      Cancellation.deliver (Cancellation.application Cancellation.Posix)
        (Cancellation.Signal sig) p = None <->
      sig <> Cancellation.SIGINT /\ sig <> Cancellation.SIGTERM) /\
  (forall ctrl p,
      Cancellation.deliver (Cancellation.application Cancellation.Posix)
        (Cancellation.ConsoleCtrl ctrl) p = None) /\
  (forall sig p,
      Cancellation.deliver (Cancellation.application Cancellation.Win32)
        (Cancellation.Signal sig) p = None) /\
  (forall o r r' p p1 p2,
      Cancellation.deliver (Cancellation.application o) r p = Some p1 ->
      Cancellation.deliver (Cancellation.application o) r' p = Some p2 ->
      p1 = p2).
Proof.
  split; [|split; [|split]].
  - intros sig p. rewrite InterceptFacts.deliver_posix_signal.
    destruct (Z.eqb_spec Cancellation.SIGINT sig) as [<-|H2].
    { split; [discriminate|]. intros [H _]. contradiction. }
    destruct (Z.eqb_spec Cancellation.SIGTERM sig) as [<-|H15].
    { split; [discriminate|]. intros [_ H]. contradiction. }
    split; [|reflexivity]. intros _. split; congruence.
  - reflexivity.
  - reflexivity.
  - intros o r r' p p1 p2 H1 H2.
    assert (Hq : forall r0 q, Cancellation.deliver (Cancellation.application o) r0 p
                              = Some q -> q = Cancellation.quit 0 p).
    { intros r0 q. destruct o, r0 as [sig|ctrl]; try discriminate.
      - intros H. injection H as <-. reflexivity.
      - rewrite InterceptFacts.deliver_posix_signal.
        destruct (Cancellation.SIGINT =? sig);
          [intros H; injection H as <-; reflexivity|].
        destruct (Cancellation.SIGTERM =? sig);
          [intros H; injection H as <-; reflexivity|discriminate]. }
    rewrite (Hq r p1 H1), (Hq r' p2 H2). reflexivity.
Qed.

Lemma only_stop_requests_intercepted_witness :
  Cancellation.deliver (Cancellation.application Cancellation.Posix)
    (Cancellation.Signal 1) (Cancellation.mkProcess
                               (Cancellation.mkGenefer false 12 false) []) = None.
Proof.
  apply (proj1 only_stop_requests_intercepted). split; discriminate.
Defined.

(** ** What later tokens can undo *)

Module LaterFacts.
Import Parse.

(** What holds after the pass at a visited position, and is kept by every
    later pass, holds at the end of the parse. *)
Lemma invariant_from cnt args (P : locals -> Prop) st st1 r :
  visits cnt args st -> (l_i st < size args)%nat ->
  body cnt args st = Ok st1 ->
  P (set_i st1 (S (l_i st1))) ->
  (forall s s', P s -> (l_i s < size args)%nat -> body cnt args s = Ok s' ->
                P (set_i s' (S (l_i s')))) ->
  parse_args cnt args = Ok r -> P r.
Proof.
  intros Hv Hlt Hb HP Hstep Hparse.
  rewrite (ParseFacts.visits_parse cnt args st Hv) in Hparse.
  rewrite ParseFacts.loop_step in Hparse by lia. rewrite Hb in Hparse.
  exact (ParseFacts.loop_invariant cnt args P Hstep _ _ _ HP Hparse).
Qed.

End LaterFacts.

(** X21. The last exponent wins: when the loop accepts an exponent [n] at
    some flag and no token further on starts with [-n], a parse that
    succeeds ends with the exponent [n]. *)
Theorem last_exponent_wins (deviceCount : Z) (args : list string)
  (st st1 r : Parse.locals) :
  Parse.visits deviceCount args st ->
  (Parse.l_i st < Parse.size args)%nat ->
  Str.substr (Parse.arg_at args (Parse.l_i st)) 0 2 = "-n" ->
  Parse.body deviceCount args st = Ok st1 ->
  (forall j, (Parse.l_i st1 < j < Parse.size args)%nat ->
             Str.substr (Parse.arg_at args j) 0 2 <> "-n") ->
  Parse.parse_args deviceCount args = Ok r ->
  Parse.l_n r = Libc.atoi (fst (Parse.value_of args "-n" (Parse.l_i st))) /\
  8 <= Parse.l_n r <= 16.
Proof.
  intros Hv Hlt Hn Hb Hlater Hparse.
  assert (H1 : Parse.l_n st1 = Libc.atoi (fst (Parse.value_of args "-n" (Parse.l_i st)))
               /\ 8 <= Parse.l_n st1 <= 16).
  { rewrite (ParseFacts.body_n deviceCount args st Hn) in Hb. cbv zeta in Hb.
    destruct (Z.ltb_spec (Libc.atoi (fst (Parse.value_of args "-n" (Parse.l_i st)))) 8);
      [discriminate|].
    destruct (Z.gtb_spec (Libc.atoi (fst (Parse.value_of args "-n" (Parse.l_i st)))) 16);
      [discriminate|].
    injection Hb as <-. simpl. lia. }
  assert (HP : (Parse.l_i st1 < Parse.l_i r)%nat /\ Parse.l_n r = Parse.l_n st1).
  { apply (LaterFacts.invariant_from deviceCount args
             (fun s => (Parse.l_i st1 < Parse.l_i s)%nat /\ Parse.l_n s = Parse.l_n st1)
             st st1 r Hv Hlt Hb).
    - simpl. split; [lia|reflexivity].
    - intros s s' [Hi Hs] Hlt' Hb'. cbn [Parse.l_i Parse.l_n Parse.set_i].
      pose proof (ParseFacts.body_index _ _ _ _ Hb').
      split; [lia|].
      rewrite (ParseFacts.body_keeps_n deviceCount args s s'); auto.
    - exact Hparse. }
  destruct HP as [_ HP]. rewrite HP. exact H1.
Qed.

(** [-n 9 -p -n 12]: the exponent is 12. *)
Lemma last_exponent_wins_witness :
  Parse.l_n (Parse.set_i (Parse.set_n (Parse.set_display Parse.init true) 12) 5) = 12.
Proof.
  refine (proj1 (last_exponent_wins 1 ["-n"; "9"; "-p"; "-n"; "12"]
            (Parse.set_i (Parse.set_display (Parse.set_n Parse.init 9) true) 3)
            (Parse.set_i (Parse.set_n (Parse.set_display Parse.init true) 12) 4)
            (Parse.set_i (Parse.set_n (Parse.set_display Parse.init true) 12) 5)
            _ _ _ _ _ _)).
  - exact (Parse.visits_next 1 ["-n"; "9"; "-p"; "-n"; "12"]
             (Parse.set_i (Parse.set_n Parse.init 9) 2)
             (Parse.set_i (Parse.set_display (Parse.set_n Parse.init 9) true) 2)
             (Parse.visits_next 1 ["-n"; "9"; "-p"; "-n"; "12"] Parse.init
                (Parse.set_n (Parse.set_i Parse.init 1) 9)
                (Parse.visits_init _ _) (le_n_S _ _ (Nat.le_0_l 4)) eq_refl)
             (le_n_S _ _ (le_n_S _ _ (le_n_S _ _ (Nat.le_0_l 2)))) eq_refl).
  - simpl. lia.
  - reflexivity.
  - reflexivity.
  - simpl. intros j Hj. lia.
  - reflexivity.
Defined.

(** X22. The display flag, once set, stays set: when the loop reads the
    token [-p] as a flag, a parse that succeeds ends with the display on,
    whatever follows. *)
Theorem display_flag_sticks (deviceCount : Z) (args : list string)
  (st r : Parse.locals) :
  Parse.visits deviceCount args st ->
  (Parse.l_i st < Parse.size args)%nat ->
  Parse.arg_at args (Parse.l_i st) = "-p" ->
  Parse.parse_args deviceCount args = Ok r ->
  Parse.l_display r = true.
Proof.
  intros Hv Hlt Hp Hparse.
  assert (Hb : Parse.body deviceCount args st = Ok (Parse.set_display st true)).
  { unfold Parse.body. rewrite Hp. reflexivity. }
  apply (LaterFacts.invariant_from deviceCount args
           (fun s => Parse.l_display s = true) st _ r Hv Hlt Hb).
  - reflexivity.
  - intros s s' HP _ Hb'. cbn [Parse.l_display Parse.set_i].
    destruct (PassFacts.body_inv _ _ _ _ Hb')
      as [(_ & _ & ->)|[(_ & ->)|[(_ & _ & ->)|[(_ & _ & ->)|[(_ & ->)|(_ & ->)]]]]];
      simpl; auto.
  - exact Hparse.
Qed.

(** [-p -n 9 -d 0]: the display is on at the end. *)
Lemma display_flag_sticks_witness :
  Parse.l_display
    (Parse.set_i (Parse.set_d (Parse.set_n (Parse.set_display Parse.init true) 9) 0) 5)
  = true.
Proof.
  refine (display_flag_sticks 1 ["-p"; "-n"; "9"; "-d"; "0"] Parse.init
            (Parse.set_i (Parse.set_d (Parse.set_n (Parse.set_display Parse.init true) 9) 0) 5)
            (Parse.visits_init _ _) _ _ _).
  - simpl. lia.
  - reflexivity.
  - reflexivity.
Defined.
